(** * Query-and-mutation gateway of the food-wastage management app

    A shallow embedding of [foodapp.py]: the connection provisioner
    [get_conn], the query executor [read_sql] with its 60-second
    [st.cache_data] wrapper, the mutation executor [execute_sql], the
    date-cast helper [date_expr], the report catalog (the fifteen
    insight queries and the dashboard KPIs) and the CRUD statements.

    Python exceptions are modelled by an outcome type, the process and the
    database server by an explicit [World] threaded through a small
    state-and-exception monad, psycopg2 sessions by a finite map from
    connection handles to the uncommitted state of their transaction. *)

From Stdlib Require Import ZArith QArith Lqa String Ascii List Bool Lia Sorted.
From Stdlib Require Import Floats.SpecFloat.
From stdpp Require Import gmap strings list fin_maps.

Local Open Scope Z_scope.

(** ** Python values, parameters and tabular results *)

(** The scalars the app binds as query parameters and reads from result
    cells: [None], [int], [str] and [datetime.date]. *)
Inductive Value : Type :=
  | VNone
  | VInt (n : Z)
  | VStr (s : string)
  | VDate (y m d : Z).

#[global] Instance Value_eq_dec : EqDecision Value.
Proof. solve_decision. Defined.

Definition Value_to_sum (v : Value) : unit + Z + string + (Z * Z * Z) :=
  match v with
  | VNone => inl (inl (inl tt))
  | VInt n => inl (inl (inr n))
  | VStr s => inl (inr s)
  | VDate y m d => inr (y, m, d)
  end.

Definition Value_of_sum (x : unit + Z + string + (Z * Z * Z)) : Value :=
  match x with
  | inl (inl (inl _)) => VNone
  | inl (inl (inr n)) => VInt n
  | inl (inr s) => VStr s
  | inr (y, m, d) => VDate y m d
  end.

#[global] Instance Value_countable : Countable Value.
Proof.
  refine (inj_countable' Value_to_sum Value_of_sum _).
  intros []; reflexivity.
Defined.

(** [params]: [None], or a sequence (tuple or list) of values. *)
Definition Params : Type := option (list Value).

(** A [pandas.DataFrame]: ordered column labels and rows of cells. *)
Record DataFrame : Type := mkDataFrame {
  columns : list string;
  rows : list (list Value);
}.

(** The exceptions psycopg2 raises: the server cannot be reached
    ([OperationalError]), a closed connection is used ([InterfaceError]),
    the server rejects a statement ([DatabaseError], with its SQLSTATE). *)
Inductive Exn : Type :=
  | OperationalError
  | InterfaceError
  | DatabaseError (sqlstate : string).

(** What a Python call does: return a value or raise. *)
Inductive Outcome (A : Type) : Type :=
  | Returned (a : A)
  | Raised (e : Exn).
Arguments Returned {A} a.
Arguments Raised {A} e.

(** ** Connection provisioner: configuration *)

(** The five sidebar inputs [DB_HOST], [DB_NAME], [DB_USER], [DB_PASS],
    [DB_PORT] (module globals of the script). *)
Record Config : Type := mkConfig {
  DB_HOST : string;
  DB_NAME : string;
  DB_USER : string;
  DB_PASS : string;
  DB_PORT : Z;
}.

(** The keyword arguments of [psycopg2.connect]. The port is whatever
    Python object is passed: [get_conn] passes a string. *)
Record ConnectArgs : Type := mkConnectArgs {
  host : string;
  dbname : string;
  user : string;
  password : string;
  port : Value;
}.

(** [get_conn] calls [psycopg2.connect] with five literals; the module
    globals are in scope but the body never reads them. *)
Definition get_conn_args (globals : Config) : ConnectArgs :=
  {| host := "localhost"; dbname := "foodapp"; user := "postgres";
     password := "nagda@321"; port := VStr "5432" |}.

(** ** The gateway over an arbitrary store *)

Section Gateway.

(** The relational store and the server's semantics of one statement
    inside a transaction: a write maps the transaction's state to a new
    one or is rejected, a read returns a table or is rejected. The SQL
    dialect is the server's, not the gateway's. *)
Context {Store : Type}.
Variable globals : Config.
Variable pg_execute : string -> Params -> Store -> Exn + Store.
Variable pg_query : string -> Params -> Store -> Exn + DataFrame.

(** The process and the servers it can talk to. [committed] is the
    store as committed; [accepts] tells which connection arguments name a
    server that is up and lets the user in; [sessions] maps every open
    connection handle to the state its transaction sees; [connect_calls]
    counts the calls of [psycopg2.connect]; [wire] lists the statements
    the server has received, oldest first; [cache_data] is the store of
    [st.cache_data], keyed by the call's arguments, each entry stamped
    with the clock reading (in seconds) at which it was fetched. *)
Record World : Type := mkWorld {
  committed : Store;
  accepts : ConnectArgs -> bool;
  sessions : gmap nat Store;
  connect_calls : nat;
  wire : list (string * Params);
  cache_data : gmap (string * Params) (Q * DataFrame);
}.

Definition set_committed (s : Store) (w : World) : World :=
  mkWorld s (accepts w) (sessions w) (connect_calls w) (wire w) (cache_data w).
Definition set_sessions (m : gmap nat Store) (w : World) : World :=
  mkWorld (committed w) (accepts w) m (connect_calls w) (wire w) (cache_data w).
Definition set_connect_calls (n : nat) (w : World) : World :=
  mkWorld (committed w) (accepts w) (sessions w) n (wire w) (cache_data w).
Definition set_wire (l : list (string * Params)) (w : World) : World :=
  mkWorld (committed w) (accepts w) (sessions w) (connect_calls w) l (cache_data w).
Definition set_cache_data (c : gmap (string * Params) (Q * DataFrame)) (w : World) : World :=
  mkWorld (committed w) (accepts w) (sessions w) (connect_calls w) (wire w) c.

(** State and exceptions. *)
Definition M (A : Type) : Type := World -> Outcome A * World.

Definition ret {A} (a : A) : M A := fun w => (Returned a, w).
Definition raise {A} (e : Exn) : M A := fun w => (Raised e, w).
Definition bind {A B} (m : M A) (k : A -> M B) : M B :=
  fun w =>
    match m w with
    | (Returned a, w1) => k a w1
    | (Raised e, w1) => (Raised e, w1)
    end.

(** [try: body finally: cleanup]: the cleanup runs on both exits; the
    body's outcome stands unless the cleanup itself raises. *)
Definition try_finally {A} (body : M A) (cleanup : M unit) : M A :=
  fun w =>
    let '(r, w1) := body w in
    match cleanup w1 with
    | (Returned _, w2) => (r, w2)
    | (Raised e, w2) => (Raised e, w2)
    end.

Notation "x <~ m ;; k" := (bind m (fun x => k))
  (at level 100, m at next level, right associativity).

(** [get_conn]: one [psycopg2.connect] call with [get_conn_args]; on
    success a new handle whose transaction starts from the committed
    state. *)
Definition get_conn : M nat :=
  fun w =>
    let w1 := set_connect_calls (S (connect_calls w)) w in
    if accepts w (get_conn_args globals) then
      let h := fresh (dom (sessions w)) in
      (Returned h, set_sessions (<[h := committed w]> (sessions w)) w1)
    else (Raised OperationalError, w1).

(** [conn.close()]: the handle is released, uncommitted work is lost. *)
Definition conn_close (h : nat) : M unit :=
  fun w => (Returned tt, set_sessions (delete h (sessions w)) w).

(** [conn.commit()] and [conn.rollback()]. *)
Definition conn_commit (h : nat) : M unit :=
  fun w =>
    match sessions w !! h with
    | Some s => (Returned tt, set_committed s w)
    | None => (Raised InterfaceError, w)
    end.
Definition conn_rollback (h : nat) : M unit :=
  fun w =>
    match sessions w !! h with
    | Some _ => (Returned tt, set_sessions (<[h := committed w]> (sessions w)) w)
    | None => (Raised InterfaceError, w)
    end.

(** [with conn: body]: commit when the body returns, roll back and
    re-raise when it raises. *)
Definition with_conn {A} (h : nat) (body : M A) : M A :=
  fun w =>
    match body w with
    | (Returned a, w1) =>
        match conn_commit h w1 with
        | (Returned _, w2) => (Returned a, w2)
        | (Raised e, w2) => (Raised e, w2)
        end
    | (Raised e, w1) =>
        match conn_rollback h w1 with
        | (Returned _, w2) => (Raised e, w2)
        | (Raised e', w2) => (Raised e', w2)
        end
    end.

(** [cur.execute(query, params)] on a cursor of connection [h] (a cursor
    is identified with the connection that made it; closing it changes
    nothing of the session). The statement reaches the server, which
    either moves the transaction to a new state or rejects it. *)
Definition cur_execute (h : nat) (query : string) (params : Params) : M unit :=
  fun w =>
    match sessions w !! h with
    | None => (Raised InterfaceError, w)
    | Some s =>
        let w1 := set_wire (wire w ++ [(query, params)]) w in
        match pg_execute query params s with
        | inr s' => (Returned tt, set_sessions (<[h := s']> (sessions w1)) w1)
        | inl e => (Raised e, w1)
        end
    end.

(** [cur.executemany(query, seq)]: [execute] for each element in turn. *)
Fixpoint cur_executemany (h : nat) (query : string) (seq : list (list Value)) : M unit :=
  match seq with
  | [] => ret tt
  | p :: rest => _ <~ cur_execute h query (Some p) ;; cur_executemany h query rest
  end.

(** [pd.read_sql(query, conn, params=params)]. *)
Definition pd_read_sql (query : string) (h : nat) (params : Params) : M DataFrame :=
  fun w =>
    match sessions w !! h with
    | None => (Raised InterfaceError, w)
    | Some s =>
        let w1 := set_wire (wire w ++ [(query, params)]) w in
        match pg_query query params s with
        | inr df => (Returned df, w1)
        | inl e => (Raised e, w1)
        end
    end.

(** The body of [read_sql], which runs on a cache miss. *)
Definition read_sql_body (query : string) (params : Params) : M DataFrame :=
  conn <~ get_conn ;;
  try_finally (pd_read_sql query conn params) (conn_close conn).

(** An entry stamped [stamp] is served while the clock reads less than
    [stamp + ttl]. *)
Definition within_ttl (ttl now stamp : Q) : bool :=
  if Qlt_le_dec now (stamp + ttl) then true else false.

(** [@st.cache_data(ttl=...)]: the wrapped function's result is stored
    under the call's arguments; a live entry is returned without running
    the function; otherwise the function runs and, when it returns, the
    entry is written with the current clock reading [now]. A call that
    raises stores nothing. *)
Definition st_cache_data (ttl : Q) (f : string -> Params -> M DataFrame)
    (now : Q) (query : string) (params : Params) : M DataFrame :=
  fun w =>
    let miss :=
      match f query params w with
      | (Returned df, w1) =>
          (Returned df,
           set_cache_data (<[(query, params) := (now, df)]> (cache_data w1)) w1)
      | (Raised e, w1) => (Raised e, w1)
      end in
    match cache_data w !! (query, params) with
    | Some (stamp, df) =>
        if within_ttl ttl now stamp then (Returned df, w) else miss
    | None => miss
    end.

(** [read_sql] as the script calls it, behind [@st.cache_data(ttl=60)];
    [now] is the clock reading when the call is made. *)
Definition read_sql (now : Q) (query : string) (params : Params) : M DataFrame :=
  st_cache_data 60 read_sql_body now query params.

(** What the server does with a batch inside one transaction: the state
    after the last statement, or the first rejection. *)
Fixpoint pg_batch (query : string) (batch : list Params) (s : Store) : Exn + Store :=
  match batch with
  | [] => inr s
  | p :: rest =>
      match pg_execute query p s with
      | inr s' => pg_batch query rest s'
      | inl e => inl e
      end
  end.

(** The statements of a batch that reach the server: all of them up to
    and including the first one rejected. *)
Fixpoint pg_received (query : string) (batch : list Params) (s : Store)
    : list (string * Params) :=
  match batch with
  | [] => []
  | p :: rest =>
      (query, p) ::
      match pg_execute query p s with
      | inr s' => pg_received query rest s'
      | inl _ => []
      end
  end.

(** The parameter sets [execute_sql] sends for its arguments. *)
Definition statements_of (params : Params) (many : option (list (list Value)))
    : list Params :=
  match many with
  | Some seq => map Some seq
  | None => [params]
  end.

Definition execute_sql (query : string) (params : Params)
    (many : option (list (list Value))) : M unit :=
  conn <~ get_conn ;;
  try_finally
    (with_conn conn
       (match many with
        | Some seq => cur_executemany conn query seq
        | None => cur_execute conn query params
        end))
    (conn_close conn).

(** The outcome of a batch as the caller sees it. *)
Definition batch_outcome (r : Exn + Store) : Outcome unit :=
  match r with
  | inr _ => Returned tt
  | inl e => Raised e
  end.

(** The world once a connection attempt has been counted. *)
Definition attempted (w : World) : World :=
  set_connect_calls (S (connect_calls w)) w.

(** The world once further statements have reached the server. *)
Definition received (l : list (string * Params)) (w : World) : World :=
  set_wire (wire w ++ l) w.

(** The script's reads, one after the other: an exception ends the run
    (the script has no [try] around its calls). [now] is the clock
    reading of the run. *)
Fixpoint run_reads (now : Q) (calls : list (string * Params)) : M (list DataFrame) :=
  match calls with
  | [] => ret []
  | (query, params) :: rest =>
      df <~ read_sql now query params ;;
      dfs <~ run_reads now rest ;;
      ret (df :: dfs)
  end.

(** One [execute_sql] call per parameter tuple, in turn (a button pressed
    once per tuple): an exception ends the run. *)
Fixpoint execute_each (query : string) (batch : list Params) : M unit :=
  match batch with
  | [] => ret tt
  | p :: rest => _ <~ execute_sql query p None ;; execute_each query rest
  end.

(** The state the server reaches on the statements of a batch it accepts
    before the first one it rejects. *)
Fixpoint pg_partial (query : string) (batch : list Params) (s : Store) : Store :=
  match batch with
  | [] => s
  | p :: rest =>
      match pg_execute query p s with
      | inr s' => pg_partial query rest s'
      | inl _ => s
      end
  end.

(** No cache entry is older than the clock reading [now]. *)
Definition fetched_since (now : Q) (w : World) : Prop :=
  forall key stamp df, cache_data w !! key = Some (stamp, df) -> (now <= stamp)%Q.

End Gateway.

Arguments World : clear implicits.

(** ** Strings: quoting, the date-cast helper, [str.strip] *)

(** The double-quote character, and a double-quoted SQL identifier. *)
Definition dq : string := String (ascii_of_nat 34) EmptyString.
Definition qi (ident : string) : string := dq +:+ ident +:+ dq.

(** [date_expr(colname)] is the f-string [f'"{colname}"::date']. *)
Definition date_expr (colname : string) : string :=
  dq +:+ colname +:+ dq +:+ "::date".

(** [str.isspace] on one character (code points below 256): the ASCII
    controls 9 to 13 and 28 to 31, the space, NEL and the no-break space. *)
Definition py_isspace (c : ascii) : bool :=
  let n := Z.of_N (N_of_ascii c) in
  ((9 <=? n) && (n <=? 13)) || ((28 <=? n) && (n <=? 32))
  || (n =? 133) || (n =? 160).

Fixpoint lstrip (s : string) : string :=
  match s with
  | EmptyString => EmptyString
  | String c rest => if py_isspace c then lstrip rest else s
  end.

Fixpoint rstrip (s : string) : string :=
  match s with
  | EmptyString => EmptyString
  | String c rest =>
      match rstrip rest with
      | EmptyString => if py_isspace c then EmptyString else String c EmptyString
      | kept => String c kept
      end
  end.

(** [s.strip()]. *)
Definition strip (s : string) : string := rstrip (lstrip s).

(** Every character of the string is whitespace. *)
Fixpoint all_space (s : string) : bool :=
  match s with
  | EmptyString => true
  | String c rest => py_isspace c && all_space rest
  end.

(** ** The statements of the script *)

(** Line 74 of [foodapp.py]. *)
Definition sql_providers : string :=
  "SELECT * FROM providers;".

(** Line 75 of [foodapp.py]. *)
Definition sql_receivers : string :=
  "SELECT * FROM receivers;".

(** Line 76 of [foodapp.py]. *)
Definition sql_food_listings : string :=
  "SELECT * FROM food_listings;".

(** Line 77 of [foodapp.py]. *)
Definition sql_claims : string :=
  "SELECT * FROM claims;".

(** Line 230 of [foodapp.py]. *)
Definition sql_insight_1 : string :=
  "
        SELECT " +:+ qi "City" +:+ ",
               COUNT(DISTINCT " +:+ qi "Provider_ID" +:+ ") AS total_providers,
               COUNT(DISTINCT " +:+ qi "Receiver_ID" +:+ ") AS total_receivers
        FROM (
            SELECT " +:+ qi "City" +:+ ", " +:+ qi "Provider_ID" +:+ ", NULL::int AS " +:+ qi "Receiver_ID" +:+ " FROM providers
            UNION ALL
            SELECT " +:+ qi "City" +:+ ", NULL::int, " +:+ qi "Receiver_ID" +:+ " FROM receivers
        ) t
        GROUP BY " +:+ qi "City" +:+ "
        ORDER BY " +:+ qi "City" +:+ ";
        ".

(** Line 248 of [foodapp.py]. *)
Definition sql_insight_2 : string :=
  "
        SELECT " +:+ qi "Provider_Type" +:+ ", SUM(" +:+ qi "Quantity" +:+ ") AS total_quantity
        FROM food_listings
        GROUP BY " +:+ qi "Provider_Type" +:+ "
        ORDER BY total_quantity DESC
        LIMIT 1;
        ".

(** Line 260 of [foodapp.py]. *)
Definition sql_insight_3 : string :=
  "
        SELECT " +:+ qi "Name" +:+ ", " +:+ qi "Type" +:+ ", " +:+ qi "Contact" +:+ ", " +:+ qi "Address" +:+ "
        FROM providers
        WHERE (%s IS NULL) OR (" +:+ qi "City" +:+ " = %s);
        ".

(** Line 271 of [foodapp.py]. *)
Definition sql_insight_4 : string :=
  "
        SELECT r." +:+ qi "Name" +:+ ", r." +:+ qi "City" +:+ ", COUNT(c." +:+ qi "Claim_ID" +:+ ") AS total_claims
        FROM claims c
        JOIN receivers r ON c." +:+ qi "Receiver_ID" +:+ " = r." +:+ qi "Receiver_ID" +:+ "
        GROUP BY r." +:+ qi "Name" +:+ ", r." +:+ qi "City" +:+ "
        ORDER BY total_claims DESC
        LIMIT 5;
        ".

(** Line 284 of [foodapp.py]. *)
Definition sql_insight_5 : string :=
  "SELECT SUM(" +:+ qi "Quantity" +:+ ") AS total_food_available FROM food_listings;".

(** Line 290 of [foodapp.py]. *)
Definition sql_insight_6 : string :=
  "
        SELECT p." +:+ qi "City" +:+ ", COUNT(f." +:+ qi "Food_ID" +:+ ") AS total_listings
        FROM food_listings f
        JOIN providers p ON f." +:+ qi "Provider_ID" +:+ " = p." +:+ qi "Provider_ID" +:+ "
        GROUP BY p." +:+ qi "City" +:+ "
        ORDER BY total_listings DESC
        LIMIT 1;
        ".

(** Line 303 of [foodapp.py]. *)
Definition sql_insight_7 : string :=
  "
        SELECT " +:+ qi "Food_Type" +:+ ", COUNT(" +:+ qi "Food_ID" +:+ ") AS total_items
        FROM food_listings
        GROUP BY " +:+ qi "Food_Type" +:+ "
        ORDER BY total_items DESC;
        ".

(** Line 315 of [foodapp.py]. *)
Definition sql_insight_8 : string :=
  "
        SELECT f." +:+ qi "Food_Name" +:+ ", COUNT(c." +:+ qi "Claim_ID" +:+ ") AS total_claims
        FROM claims c
        JOIN food_listings f ON c." +:+ qi "Food_ID" +:+ " = f." +:+ qi "Food_ID" +:+ "
        GROUP BY f." +:+ qi "Food_Name" +:+ "
        ORDER BY total_claims DESC;
        ".

(** Line 328 of [foodapp.py]. *)
Definition sql_insight_9 : string :=
  "
        SELECT p." +:+ qi "Name" +:+ ", COUNT(c." +:+ qi "Claim_ID" +:+ ") AS successful_claims
        FROM claims c
        JOIN food_listings f ON c." +:+ qi "Food_ID" +:+ " = f." +:+ qi "Food_ID" +:+ "
        JOIN providers p ON f." +:+ qi "Provider_ID" +:+ " = p." +:+ qi "Provider_ID" +:+ "
        WHERE c." +:+ qi "Status" +:+ " = 'Completed'
        GROUP BY p." +:+ qi "Name" +:+ "
        ORDER BY successful_claims DESC
        LIMIT 1;
        ".

(** Line 343 of [foodapp.py]. *)
Definition sql_insight_10 : string :=
  "
        SELECT " +:+ qi "Status" +:+ ",
               COUNT(*) * 100.0 / SUM(COUNT(*)) OVER() AS percentage
        FROM claims
        GROUP BY " +:+ qi "Status" +:+ ";
        ".

(** Line 355 of [foodapp.py]. *)
Definition sql_insight_11 : string :=
  "
        SELECT r." +:+ qi "Name" +:+ ", ROUND(AVG(f." +:+ qi "Quantity" +:+ "),2) AS avg_quantity_claimed
        FROM claims c
        JOIN food_listings f ON c." +:+ qi "Food_ID" +:+ " = f." +:+ qi "Food_ID" +:+ "
        JOIN receivers r ON c." +:+ qi "Receiver_ID" +:+ " = r." +:+ qi "Receiver_ID" +:+ "
        GROUP BY r." +:+ qi "Name" +:+ "
        ORDER BY avg_quantity_claimed DESC;
        ".

(** Line 368 of [foodapp.py]. *)
Definition sql_insight_12 : string :=
  "
        SELECT f." +:+ qi "Meal_Type" +:+ ", COUNT(c." +:+ qi "Claim_ID" +:+ ") AS total_claims
        FROM claims c
        JOIN food_listings f ON c." +:+ qi "Food_ID" +:+ " = f." +:+ qi "Food_ID" +:+ "
        GROUP BY f." +:+ qi "Meal_Type" +:+ "
        ORDER BY total_claims DESC;
        ".

(** Line 381 of [foodapp.py]. *)
Definition sql_insight_13 : string :=
  "
        SELECT p." +:+ qi "Name" +:+ ", SUM(f." +:+ qi "Quantity" +:+ ") AS total_donated
        FROM food_listings f
        JOIN providers p ON f." +:+ qi "Provider_ID" +:+ " = p." +:+ qi "Provider_ID" +:+ "
        GROUP BY p." +:+ qi "Name" +:+ "
        ORDER BY total_donated DESC;
        ".

(** Line 394 of [foodapp.py]. *)
Definition sql_insight_14 : string :=
  "
        SELECT r." +:+ qi "City" +:+ ", COUNT(c." +:+ qi "Claim_ID" +:+ ") AS successful_claims
        FROM claims c
        JOIN receivers r ON c." +:+ qi "Receiver_ID" +:+ " = r." +:+ qi "Receiver_ID" +:+ "
        WHERE c." +:+ qi "Status" +:+ " = 'Completed'
        GROUP BY r." +:+ qi "City" +:+ "
        ORDER BY successful_claims DESC
        LIMIT 1;
        ".

(** Line 408 of [foodapp.py]. *)
Definition sql_insight_15 : string :=
  "
        SELECT " +:+ qi "Food_Name" +:+ ", " +:+ qi "Expiry_Date" +:+ ", " +:+ qi "Quantity" +:+ "
        FROM food_listings
        WHERE " +:+ date_expr "Expiry_Date" +:+ " > CURRENT_DATE
        ORDER BY " +:+ date_expr "Expiry_Date" +:+ " ASC
        LIMIT 1;
        ".

(** Line 454 of [foodapp.py]. *)
Definition sql_add_listing : string :=
  "
                    INSERT INTO food_listings
                    (" +:+ qi "Food_Name" +:+ "," +:+ qi "Quantity" +:+ "," +:+ qi "Expiry_Date" +:+ "," +:+ qi "Provider_ID" +:+ "," +:+ qi "Provider_Type" +:+ "," +:+ qi "Location" +:+ "," +:+ qi "Food_Type" +:+ "," +:+ qi "Meal_Type" +:+ ")
                    VALUES (%s,%s,%s,%s,%s,%s,%s,%s);
                    ".

(** Line 469 of [foodapp.py]. *)
Definition sql_view_listings : string :=
  "SELECT * FROM food_listings ORDER BY " +:+ qi "Food_ID" +:+ " DESC LIMIT 500;".

(** Line 477 of [foodapp.py]. *)
Definition sql_pick_quantity : string :=
  "SELECT " +:+ qi "Food_ID" +:+ "," +:+ qi "Food_Name" +:+ "," +:+ qi "Quantity" +:+ " FROM food_listings ORDER BY " +:+ qi "Food_ID" +:+ ";".

(** Line 483 of [foodapp.py]. *)
Definition sql_update_quantity : string :=
  "UPDATE food_listings SET " +:+ qi "Quantity" +:+ "=%s WHERE " +:+ qi "Food_ID" +:+ "=%s;".

(** Line 494 of [foodapp.py]. *)
Definition sql_pick_listing : string :=
  "SELECT " +:+ qi "Food_ID" +:+ "," +:+ qi "Food_Name" +:+ " FROM food_listings ORDER BY " +:+ qi "Food_ID" +:+ ";".

(** Line 499 of [foodapp.py]. *)
Definition sql_delete_listing : string :=
  "DELETE FROM food_listings WHERE " +:+ qi "Food_ID" +:+ "=%s;".

(** Line 511 of [foodapp.py]. *)
Definition sql_pick_receiver : string :=
  "SELECT " +:+ qi "Receiver_ID" +:+ "," +:+ qi "Name" +:+ " FROM receivers ORDER BY " +:+ qi "Receiver_ID" +:+ ";".

(** Line 517 of [foodapp.py]. *)
Definition sql_create_claim : string :=
  "
                    INSERT INTO claims (" +:+ qi "Food_ID" +:+ "," +:+ qi "Receiver_ID" +:+ "," +:+ qi "Status" +:+ ")
                    VALUES (%s,%s,%s);
                    ".

(** Line 531 of [foodapp.py]. *)
Definition sql_view_claims : string :=
  "SELECT * FROM claims ORDER BY " +:+ qi "Claim_ID" +:+ " DESC LIMIT 500;".

(** Line 539 of [foodapp.py]. *)
Definition sql_pick_status : string :=
  "SELECT " +:+ qi "Claim_ID" +:+ "," +:+ qi "Food_ID" +:+ "," +:+ qi "Receiver_ID" +:+ "," +:+ qi "Status" +:+ " FROM claims ORDER BY " +:+ qi "Claim_ID" +:+ ";".

(** Line 545 of [foodapp.py]. *)
Definition sql_update_status : string :=
  "UPDATE claims SET " +:+ qi "Status" +:+ "=%s WHERE " +:+ qi "Claim_ID" +:+ "=%s;".

(** Line 556 of [foodapp.py]. *)
Definition sql_pick_claim : string :=
  "SELECT " +:+ qi "Claim_ID" +:+ "," +:+ qi "Food_ID" +:+ "," +:+ qi "Receiver_ID" +:+ " FROM claims ORDER BY " +:+ qi "Claim_ID" +:+ ";".

(** Line 561 of [foodapp.py]. *)
Definition sql_delete_claim : string :=
  "DELETE FROM claims WHERE " +:+ qi "Claim_ID" +:+ "=%s;".

(** ** The calls the script makes *)

(** What the operator types or picks in the page: the sidebar city
    filter, the add-listing form, and the selections and values of the
    other CRUD tabs (identifiers are those of the rows picked). *)
Record UiInputs : Type := mkUiInputs {
  city_filter : string;
  f_name : string;
  f_qty : Z;
  f_exp : Z * Z * Z;
  f_pid : Z;
  f_ptype : string;
  f_loc : string;
  f_ftype : string;
  f_meal : string;
  new_qty : Z;
  picked_food_id : Z;
  deleted_food_id : Z;
  claim_food_id : Z;
  claim_receiver_id : Z;
  status : string;
  new_status : string;
  picked_claim_id : Z;
  deleted_claim_id : Z;
}.

(** [provider_city = city_filter.strip() if city_filter else None]. *)
Definition provider_city (city_filter : string) : option string :=
  match city_filter with
  | EmptyString => None
  | _ => Some (strip city_filter)
  end.

(** A Python [str] or [None] as a bound value. *)
Definition str_or_none (o : option string) : Value :=
  match o with
  | Some s => VStr s
  | None => VNone
  end.

(** The four preloaded tables (lines 74 to 77). *)
Definition preload_queries : list (string * Params) :=
  [ (sql_providers, None); (sql_receivers, None);
    (sql_food_listings, None); (sql_claims, None) ].

(** The fifteen [render_query] calls of the insights tab, in order, each
    with the query text and the [params] it hands to [read_sql]. *)
Definition tab_queries (ui : UiInputs) : list (string * Params) :=
  let provider_city := provider_city (city_filter ui) in
  [ (sql_insight_1, None);
    (sql_insight_2, None);
    (sql_insight_3, Some [str_or_none provider_city; str_or_none provider_city]);
    (sql_insight_4, None);
    (sql_insight_5, None);
    (sql_insight_6, None);
    (sql_insight_7, None);
    (sql_insight_8, None);
    (sql_insight_9, None);
    (sql_insight_10, None);
    (sql_insight_11, None);
    (sql_insight_12, None);
    (sql_insight_13, None);
    (sql_insight_14, None);
    (sql_insight_15, None) ].

(** The reads of the CRUD tabs, in order. *)
Definition crud_queries : list (string * Params) :=
  [ (sql_view_listings, None); (sql_pick_quantity, None);
    (sql_pick_listing, None); (sql_pick_listing, None);
    (sql_pick_receiver, None); (sql_view_claims, None);
    (sql_pick_status, None); (sql_pick_claim, None) ].

(** The six buttons that write. *)
Inductive CrudAction : Type :=
  | AddListing
  | UpdateQuantity
  | DeleteListing
  | CreateClaim
  | UpdateStatus
  | DeleteClaim.

(** The statement and the [params] tuple each button passes to
    [execute_sql]. *)
Definition crud_statement (a : CrudAction) (ui : UiInputs) : string * Params :=
  match a with
  | AddListing =>
      (sql_add_listing,
       Some [ VStr (f_name ui); VInt (f_qty ui);
              (let '(y, m, d) := f_exp ui in VDate y m d);
              VInt (f_pid ui); VStr (f_ptype ui); VStr (f_loc ui);
              VStr (f_ftype ui); VStr (f_meal ui) ])
  | UpdateQuantity =>
      (sql_update_quantity, Some [VInt (new_qty ui); VInt (picked_food_id ui)])
  | DeleteListing =>
      (sql_delete_listing, Some [VInt (deleted_food_id ui)])
  | CreateClaim =>
      (sql_create_claim,
       Some [VInt (claim_food_id ui); VInt (claim_receiver_id ui); VStr (status ui)])
  | UpdateStatus =>
      (sql_update_status, Some [VStr (new_status ui); VInt (picked_claim_id ui)])
  | DeleteClaim =>
      (sql_delete_claim, Some [VInt (deleted_claim_id ui)])
  end.

(** Every call the script can make to [read_sql] and [execute_sql]. *)
Definition all_calls (ui : UiInputs) : list (string * Params) :=
  preload_queries ++ tab_queries ui ++ crud_queries
  ++ map (fun a => crud_statement a ui)
       [AddListing; UpdateQuantity; DeleteListing; CreateClaim; UpdateStatus; DeleteClaim].

(** The number of positional placeholders ([%s]) in a statement text. *)
Fixpoint placeholders (text : string) : nat :=
  match text with
  | EmptyString => 0%nat
  | String "%" (String "s" rest) => S (placeholders rest)
  | String _ rest => placeholders rest
  end.

(** The number of values a call binds. *)
Definition bound_values (params : Params) : nat :=
  match params with
  | Some values => length values
  | None => 0%nat
  end.

(** ** The tables and SQL's three-valued conditions *)

(** A nullable column is an [option]; other cells are kept as values. *)
Record ProviderRow : Type := mkProviderRow {
  p_Provider_ID : option Z;
  p_Name : Value;
  p_Type : Value;
  p_Address : Value;
  p_City : option string;
  p_Contact : Value;
}.

Record ReceiverRow : Type := mkReceiverRow {
  r_Receiver_ID : option Z;
  r_Name : Value;
  r_Type : Value;
  r_City : option string;
  r_Contact : Value;
}.

(** [Expiry_Date] is a TEXT column (the CSV import left it so). *)
Record FoodRow : Type := mkFoodRow {
  fl_Food_ID : option Z;
  fl_Food_Name : Value;
  fl_Quantity : option Z;
  fl_Expiry_Date : option string;
  fl_Provider_ID : option Z;
  fl_Provider_Type : Value;
  fl_Location : Value;
  fl_Food_Type : Value;
  fl_Meal_Type : Value;
}.

Record ClaimRow : Type := mkClaimRow {
  c_Claim_ID : option Z;
  c_Food_ID : option Z;
  c_Receiver_ID : option Z;
  c_Status : option string;
  c_Timestamp : Value;
}.

Record FoodStore : Type := mkFoodStore {
  providers : list ProviderRow;
  receivers : list ReceiverRow;
  food_listings : list FoodRow;
  claims : list ClaimRow;
}.

(** SQL conditions evaluate to true, false or unknown ([None]). *)
Definition sql_is_null {A} (x : option A) : option bool :=
  Some (match x with None => true | Some _ => false end).

Definition sql_eq_text (x y : option string) : option bool :=
  match x, y with
  | Some a, Some b => Some (String.eqb a b)
  | _, _ => None
  end.

Definition sql_eq_int (x y : option Z) : option bool :=
  match x, y with
  | Some a, Some b => Some (a =? b)
  | _, _ => None
  end.

Definition sql_or (p q : option bool) : option bool :=
  match p, q with
  | Some true, _ | _, Some true => Some true
  | Some false, Some false => Some false
  | _, _ => None
  end.

(** [WHERE] keeps a row only when its condition is true. *)
Definition sql_where (p : option bool) : bool :=
  match p with
  | Some true => true
  | _ => false
  end.

(** ** Insight 3: providers of a city *)

(** [WHERE (%s IS NULL) OR ("City" = %s)], both placeholders bound to
    [provider_city]. *)
Definition insight_3_where (provider_city : option string) (r : ProviderRow) : bool :=
  sql_where (sql_or (sql_is_null provider_city) (sql_eq_text (p_City r) provider_city)).

Definition insight_3_rows (provider_city : option string) (table : list ProviderRow)
    : list ProviderRow :=
  List.filter (insight_3_where provider_city) table.

(** [SELECT "Name", "Type", "Contact", "Address" FROM providers WHERE ...]. *)
Definition insight_3 (provider_city : option string) (table : list ProviderRow)
    : DataFrame :=
  {| columns := ["Name"; "Type"; "Contact"; "Address"];
     rows := map (fun r => [p_Name r; p_Type r; p_Contact r; p_Address r])
               (insight_3_rows provider_city table) |}.

(** ** Insight 15: the listing closest to expiry *)

(** A calendar date; dates compare by year, then month, then day. *)
Record Date : Type := mkDate {
  year : Z;
  month : Z;
  day : Z;
}.

Definition date_ltb (a b : Date) : bool :=
  (year a <? year b)
  || ((year a =? year b)
      && ((month a <? month b) || ((month a =? month b) && (day a <? day b)))).

Definition date_leb (a b : Date) : bool := negb (date_ltb b a).

(** [x > y] on nullable dates. *)
Definition sql_gt_date (x y : option Date) : option bool :=
  match x, y with
  | Some a, Some b => Some (date_ltb b a)
  | _, _ => None
  end.

Definition int_or_none (o : option Z) : Value :=
  match o with
  | Some n => VInt n
  | None => VNone
  end.

Section Insight15.

(** The server's conversion of a text to a date ([None]: the text is
    not a date and the statement is rejected). Its accepted formats
    depend on the server's [DateStyle]. *)
Variable date_in : string -> option Date.

(** ["Expiry_Date"::date] on one cell: NULL stays NULL. *)
Definition cast_date (cell : option string) : Exn + option Date :=
  match cell with
  | None => inr None
  | Some text =>
      match date_in text with
      | Some d => inr (Some d)
      | None => inl (DatabaseError "22007")
      end
  end.

(** The scan evaluates the cast on every row; one bad text fails the
    whole query. *)
Fixpoint scan_expiry (table : list FoodRow) : Exn + list (option Date * FoodRow) :=
  match table with
  | [] => inr []
  | r :: rest =>
      match cast_date (fl_Expiry_Date r) with
      | inl e => inl e
      | inr d =>
          match scan_expiry rest with
          | inl e => inl e
          | inr scanned => inr ((d, r) :: scanned)
          end
      end
  end.

(** [WHERE "Expiry_Date"::date > CURRENT_DATE]. *)
Fixpoint future_rows (today : Date) (scanned : list (option Date * FoodRow))
    : list (Date * FoodRow) :=
  match scanned with
  | [] => []
  | (Some d, r) :: rest =>
      if sql_where (sql_gt_date (Some d) (Some today))
      then (d, r) :: future_rows today rest
      else future_rows today rest
  | (None, _) :: rest => future_rows today rest
  end.

(** [ORDER BY "Expiry_Date"::date ASC], as an insertion sort that keeps
    rows of equal date in scan order (the server may order them either
    way). *)
Fixpoint insert_by_date (x : Date * FoodRow) (sorted : list (Date * FoodRow))
    : list (Date * FoodRow) :=
  match sorted with
  | [] => [x]
  | y :: rest =>
      if date_leb (fst x) (fst y) then x :: y :: rest
      else y :: insert_by_date x rest
  end.

Fixpoint order_by_date (l : list (Date * FoodRow)) : list (Date * FoodRow) :=
  match l with
  | [] => []
  | x :: rest => insert_by_date x (order_by_date rest)
  end.

(** The rows insight 15 selects: filter, order, [LIMIT 1]. *)
Definition insight_15_rows (today : Date) (table : list FoodRow)
    : Exn + list (Date * FoodRow) :=
  match scan_expiry table with
  | inl e => inl e
  | inr scanned => inr (firstn 1 (order_by_date (future_rows today scanned)))
  end.

(** [SELECT "Food_Name", "Expiry_Date", "Quantity" ...]. *)
Definition insight_15 (today : Date) (table : list FoodRow) : Exn + DataFrame :=
  match insight_15_rows today table with
  | inl e => inl e
  | inr picked =>
      inr {| columns := ["Food_Name"; "Expiry_Date"; "Quantity"];
             rows := map (fun x => [ fl_Food_Name (snd x);
                                     str_or_none (fl_Expiry_Date (snd x));
                                     int_or_none (fl_Quantity (snd x)) ])
                       picked |}
  end.

(** Every expiry text of the table is a date for the server. *)
Definition expiry_texts_valid (table : list FoodRow) : Prop :=
  forall r text, In r table -> fl_Expiry_Date r = Some text -> date_in text <> None.

End Insight15.

(** The first row of the ordered list is not later than any other. *)
Definition first_is_least (l : list (Date * FoodRow)) : Prop :=
  match l with
  | [] => True
  | x :: _ => forall y, In y l -> date_leb (fst x) (fst y) = true
  end.

(** ISO 8601 dates (YYYY-MM-DD), the form in which the add-listing form's
    date reaches the column; the server accepts it under every
    [DateStyle]. *)
Definition digit (c : ascii) : option Z :=
  let n := Z.of_N (N_of_ascii c) in
  if (48 <=? n) && (n <=? 57) then Some (n - 48) else None.

Definition is_leap (y : Z) : bool :=
  ((y mod 4 =? 0) && negb (y mod 100 =? 0)) || (y mod 400 =? 0).

Definition days_in_month (y m : Z) : Z :=
  if m =? 2 then (if is_leap y then 29 else 28)
  else if (m =? 4) || (m =? 6) || (m =? 9) || (m =? 11) then 30
  else 31.

Definition iso_date (text : string) : option Date :=
  match text with
  | String y1 (String y2 (String y3 (String y4 (String "-"
      (String m1 (String m2 (String "-" (String d1 (String d2 EmptyString))))))))) =>
      match digit y1, digit y2, digit y3, digit y4,
            digit m1, digit m2, digit d1, digit d2 with
      | Some a, Some b, Some c, Some d, Some e, Some f, Some g, Some h =>
          let y := 1000 * a + 100 * b + 10 * c + d in
          let m := 10 * e + f in
          let dd := 10 * g + h in
          if (1 <=? y) && (1 <=? m) && (m <=? 12) && (1 <=? dd)
             && (dd <=? days_in_month y m)
          then Some (mkDate y m dd) else None
      | _, _, _, _, _, _, _, _ => None
      end
  | _ => None
  end.

(** ** The by-identifier writes on the tables *)

(** [UPDATE food_listings SET "Quantity"=%s WHERE "Food_ID"=%s]. *)
Definition set_quantity (q : Z) (r : FoodRow) : FoodRow :=
  mkFoodRow (fl_Food_ID r) (fl_Food_Name r) (Some q) (fl_Expiry_Date r)
    (fl_Provider_ID r) (fl_Provider_Type r) (fl_Location r) (fl_Food_Type r)
    (fl_Meal_Type r).

Definition update_quantity (q food_id : Z) (s : FoodStore) : FoodStore :=
  mkFoodStore (providers s) (receivers s)
    (map (fun r => if sql_where (sql_eq_int (fl_Food_ID r) (Some food_id))
                   then set_quantity q r else r)
       (food_listings s))
    (claims s).

(** [DELETE FROM food_listings WHERE "Food_ID"=%s]. *)
Definition delete_listing (food_id : Z) (s : FoodStore) : FoodStore :=
  mkFoodStore (providers s) (receivers s)
    (List.filter (fun r => negb (sql_where (sql_eq_int (fl_Food_ID r) (Some food_id))))
       (food_listings s))
    (claims s).

(** [UPDATE claims SET "Status"=%s WHERE "Claim_ID"=%s]. *)
Definition set_status (st : string) (c : ClaimRow) : ClaimRow :=
  mkClaimRow (c_Claim_ID c) (c_Food_ID c) (c_Receiver_ID c) (Some st) (c_Timestamp c).

Definition update_status (st : string) (claim_id : Z) (s : FoodStore) : FoodStore :=
  mkFoodStore (providers s) (receivers s) (food_listings s)
    (map (fun c => if sql_where (sql_eq_int (c_Claim_ID c) (Some claim_id))
                   then set_status st c else c)
       (claims s)).

(** [DELETE FROM claims WHERE "Claim_ID"=%s]. *)
Definition delete_claim (claim_id : Z) (s : FoodStore) : FoodStore :=
  mkFoodStore (providers s) (receivers s) (food_listings s)
    (List.filter (fun c => negb (sql_where (sql_eq_int (c_Claim_ID c) (Some claim_id))))
       (claims s)).

(** A server for the four by-identifier statements of the CRUD tabs (no
    constraint is declared on the imported tables). Any other statement,
    or one of these with other parameters, is rejected. *)
Definition crud_execute (query : string) (params : Params) (s : FoodStore)
    : Exn + FoodStore :=
  if String.eqb query sql_update_quantity then
    match params with
    | Some [VInt q; VInt food_id] => inr (update_quantity q food_id s)
    | _ => inl (DatabaseError "08P01")
    end
  else if String.eqb query sql_delete_listing then
    match params with
    | Some [VInt food_id] => inr (delete_listing food_id s)
    | _ => inl (DatabaseError "08P01")
    end
  else if String.eqb query sql_update_status then
    match params with
    | Some [VStr st; VInt claim_id] => inr (update_status st claim_id s)
    | _ => inl (DatabaseError "08P01")
    end
  else if String.eqb query sql_delete_claim then
    match params with
    | Some [VInt claim_id] => inr (delete_claim claim_id s)
    | _ => inl (DatabaseError "08P01")
    end
  else inl (DatabaseError "0A000").

(** The same server's reads: the city query of insight 3, with its two
    placeholders bound; any other read is rejected. *)
Definition value_text (v : Value) : option (option string) :=
  match v with
  | VNone => Some None
  | VStr s => Some (Some s)
  | _ => None
  end.

Definition crud_query (query : string) (params : Params) (s : FoodStore)
    : Exn + DataFrame :=
  if String.eqb query sql_insight_3 then
    match params with
    | Some [v1; v2] =>
        match value_text v1, value_text v2 with
        | Some c1, Some c2 =>
            inr {| columns := ["Name"; "Type"; "Contact"; "Address"];
                   rows := map (fun r => [p_Name r; p_Type r; p_Contact r; p_Address r])
                             (List.filter
                                (fun r => sql_where (sql_or (sql_is_null c1)
                                                       (sql_eq_text (p_City r) c2)))
                                (providers s)) |}
        | _, _ => inl (DatabaseError "42883")
        end
    | _ => inl (DatabaseError "08P01")
    end
  else inl (DatabaseError "0A000").

(** ** Dashboard KPIs *)

(** Python floats are IEEE 754 binary64 numbers. *)
Definition prec : Z := 53.
Definition emax : Z := 1024.

(** An integer as an exact (unrounded) binary number. *)
Definition exact_int (z : Z) : spec_float :=
  match z with
  | Z0 => S754_zero false
  | Zpos p => S754_finite false p 0
  | Zneg p => S754_finite true p 0
  end.

(** [float(z)]. *)
Definition py_float (z : Z) : spec_float := binary_normalize prec emax z 0 false.

(** [a / b] on two ints with [b] not zero: the quotient correctly rounded
    to the nearest float. *)
Definition py_truediv (a b : Z) : spec_float :=
  SFdiv prec emax (exact_int a) (exact_int b).

(** The integer nearest to [num / den] ([den] positive), ties to even. *)
Definition round_half_even (num den : Z) : Z :=
  let q := num / den in
  let r := num mod den in
  match 2 * r ?= den with
  | Lt => q
  | Gt => q + 1
  | Eq => if Z.even q then q else q + 1
  end.

(** [round(x, ndigits)] on a float, [ndigits] not negative: the exact
    value of [x] is rounded to [ndigits] decimals, ties to even, and the
    decimal obtained is converted to the nearest float. *)
Definition py_round (x : spec_float) (ndigits : nat) : spec_float :=
  match x with
  | S754_finite sign m e =>
      let scale := 10 ^ Z.of_nat ndigits in
      let n :=
        if 0 <=? e then Zpos m * 2 ^ e * scale
        else round_half_even (Zpos m * scale) (2 ^ (- e)) in
      if n =? 0 then S754_zero sign
      else SFdiv prec emax (exact_int (if sign then - n else n)) (exact_int scale)
  | _ => x
  end.

(** The exact value of a finite float. *)
Definition float_value (x : spec_float) : Q :=
  match x with
  | S754_finite sign m e =>
      let v := if 0 <=? e then inject_Z (Zpos m * 2 ^ e)
               else Qmake (Zpos m) (Z.to_pos (2 ^ (- e))) in
      if sign then Qopp v else v
  | _ => 0%Q
  end.

(** [len(df)]. *)
Definition df_len (df : DataFrame) : Z := Z.of_nat (length (rows df)).

Fixpoint index_of (name : string) (labels : list string) : option nat :=
  match labels with
  | [] => None
  | l :: rest =>
      if String.eqb l name then Some 0%nat
      else option_map S (index_of name rest)
  end.

(** [df[name]] when [name in df.columns]. *)
Definition df_column (df : DataFrame) (name : string) : option (list Value) :=
  match index_of name (columns df) with
  | Some i => Some (map (fun row => nth i row VNone) (rows df))
  | None => None
  end.

(** [(series == v).sum()]: each cell compares to [True] or [False], and
    the booleans are added up. *)
Definition series_eq (cells : list Value) (v : Value) : list bool :=
  map (fun c => bool_decide (c = v)) cells.

Definition series_sum (flags : list bool) : Z :=
  fold_right (fun (b : bool) (acc : Z) => (if b then 1 else 0) + acc) 0 flags.

(** Lines 93 to 95. *)
Definition total_claims (claims : DataFrame) : Z := df_len claims.

Definition completed_claims (claims : DataFrame) : Z :=
  match df_column claims "Status" with
  | Some cells => series_sum (series_eq cells (VStr "Completed"))
  | None => 0
  end.

Definition success_rate (claims : DataFrame) : spec_float :=
  if total_claims claims =? 0 then S754_zero false
  else py_round (py_truediv (100 * completed_claims claims) (total_claims claims)) 2.

(** The quotient before [round], for comparison. *)
Definition unrounded_rate (claims : DataFrame) : spec_float :=
  py_truediv (100 * completed_claims claims) (total_claims claims).

(** A claims table with the single column [Status]. *)
Definition claims_with_status (statuses : list string) : DataFrame :=
  {| columns := ["Status"]; rows := map (fun s => [VStr s]) statuses |}.

(** The number of cells equal to ["Completed"]. *)
Definition count_completed (cells : list Value) : nat :=
  length (List.filter (fun c => bool_decide (c = VStr "Completed")) cells).

(** Half a hundredth, plus room for the representation error of the
    float that [round] returns. *)
Definition tolerance : Q := Qplus (Qmake 1 200) (Qmake 1 1000000000000).

(** The rounded quotient is within [tolerance] of the exact one. *)
Definition close_to_quotient (completed total : Z) : bool :=
  let v := float_value (py_round (py_truediv (100 * completed) total) 2) in
  let q := Qmake (100 * completed) (Z.to_pos total) in
  Qle_bool (Qminus v tolerance) q && Qle_bool q (Qplus v tolerance).

(** ... for every table of at most [n] claims, any number of them
    completed. *)
Definition close_up_to (n : nat) : bool :=
  forallb (fun t =>
    forallb (fun c => close_to_quotient (Z.of_nat c) (Z.of_nat (S t)))
      (seq 0 (S (S t))))
    (seq 0 n).

(** ** Dashboard counts and the missing-values overview *)

(** [series.nunique()]: the number of distinct values, missing ones
    left out. *)
Definition series_nunique (cells : list Value) : nat :=
  length (remove_dups (List.filter (fun c => negb (bool_decide (c = VNone))) cells)).

(** [df[label].nunique() if label in df.columns else 0]. *)
Definition df_nunique (df : DataFrame) (label : string) : Z :=
  match df_column df label with
  | Some cells => Z.of_nat (series_nunique cells)
  | None => 0
  end.

(** Lines 96 and 97. *)
Definition total_providers (df : DataFrame) : Z := df_nunique df "Provider_ID".
Definition total_receivers (df : DataFrame) : Z := df_nunique df "Receiver_ID".

(** [df.empty]: no row or no column. *)
Definition df_empty (df : DataFrame) : bool :=
  match rows df, columns df with
  | [], _ => true
  | _, [] => true
  | _, _ => false
  end.

(** The number of missing cells at position [i] of the rows. *)
Definition count_missing (i : nat) (table : list (list Value)) : Z :=
  series_sum (map (fun row => bool_decide (nth i row VNone = VNone)) table).

(** [df.isna().sum()]: for each column, by position, its label and its
    number of missing cells. *)
Fixpoint isna_sum_from (i : nat) (labels : list string) (table : list (list Value))
    : list (string * Z) :=
  match labels with
  | [] => []
  | l :: rest => (l, count_missing i table) :: isna_sum_from (S i) rest table
  end.

Definition isna_sum (df : DataFrame) : list (string * Z) :=
  isna_sum_from 0 (columns df) (rows df).

(** [sort_values(ascending=False)], as an insertion sort that keeps
    columns of equal count in their order (the library's default sort may
    order them either way). *)
Fixpoint insert_desc (x : string * Z) (sorted : list (string * Z)) : list (string * Z) :=
  match sorted with
  | [] => [x]
  | y :: rest =>
      if snd y <=? snd x then x :: y :: rest
      else y :: insert_desc x rest
  end.

Fixpoint sort_desc (l : list (string * Z)) : list (string * Z) :=
  match l with
  | [] => []
  | x :: rest => insert_desc x (sort_desc rest)
  end.

(** [numpy.rint]: the nearest integer, ties to even, as a float. *)
Definition np_rint (x : spec_float) : spec_float :=
  match x with
  | S754_finite sign m e =>
      if 0 <=? e then x
      else
        let n := round_half_even (Zpos m) (2 ^ (- e)) in
        if n =? 0 then S754_zero sign
        else binary_normalize prec emax (if sign then - n else n) 0 sign
  | _ => x
  end.

(** [series.round(2)] on floats, which numpy computes as
    [rint(x * 100) / 100]. *)
Definition np_round2 (x : spec_float) : spec_float :=
  SFdiv prec emax (np_rint (SFmul prec emax x (py_float 100))) (py_float 100).

(** [(nulls / len(df) * 100).round(2)] for one count (counts and lengths
    are below [2 ^ 53], so their conversion to float is exact). *)
Definition nulls_pct (n len : Z) : spec_float :=
  np_round2 (SFmul prec emax (SFdiv prec emax (exact_int n) (exact_int len)) (py_float 100)).

(** A row of the overview, and the overview with its column labels. *)
Record NullsRow : Type := mkNullsRow {
  nr_table : string;
  nr_column : string;
  nr_nulls : Z;
  nr_pct : spec_float;
}.

Record NullsReport : Type := mkNullsReport {
  report_columns : list string;
  report_rows : list NullsRow;
}.

(** [nulls(df, name)] (lines 154 to 161). *)
Definition nulls (df : DataFrame) (name : string) : NullsReport :=
  if df_empty df then
    {| report_columns := ["column"; "nulls"; "pct"]; report_rows := [] |}
  else
    let s := sort_desc (isna_sum df) in
    {| report_columns := ["table"; "column"; "nulls"; "pct"];
       report_rows := map (fun x => mkNullsRow name (fst x) (snd x)
                                      (nulls_pct (snd x) (df_len df))) s |}.

(** ** Sample data *)

(** A configuration other than the defaults. *)
Definition remote_config : Config :=
  {| DB_HOST := "db.example.org"; DB_NAME := "pantry"; DB_USER := "app";
     DB_PASS := "s3cret"; DB_PORT := 6543 |}.

(** Two providers: one in Springfield, one whose city is two spaces. *)
Definition two_providers : list ProviderRow :=
  [ mkProviderRow (Some 1) (VStr "Joe's") (VStr "Restaurant") (VStr "1 Main St")
      (Some "Springfield") (VStr "555-0100");
    mkProviderRow (Some 2) (VStr "Corner Shop") (VStr "Grocery Store") (VStr "2 Side St")
      (Some "  ") (VStr "555-0101") ].

(** The claims tables of the examples. *)
Definition four_claims : DataFrame :=
  claims_with_status ["Completed"; "Completed"; "Pending"; "Cancelled"].

Definition three_claims : DataFrame :=
  claims_with_status ["Completed"; "Pending"; "Pending"].

(** The listings of the example: one expired, two still to expire. *)
Definition example_listing (id : Z) (name expiry : string) : FoodRow :=
  mkFoodRow (Some id) (VStr name) (Some 10) (Some expiry) (Some 1)
    (VStr "Restaurant") (VStr "Unknown") (VStr "Vegetarian") (VStr "Lunch").

Definition example_listings : list FoodRow :=
  [ example_listing 1 "Bread" "2025-01-01";
    example_listing 2 "Rice" "2025-12-01";
    example_listing 3 "Soup" "2025-11-15" ].

(** The current date of the example. *)
Definition june_first : Date := mkDate 2025 6 1.

(** A world for the examples: the server is up, nothing is open, nothing
    is cached. *)
Definition example_store : FoodStore :=
  mkFoodStore two_providers [] example_listings [].

Definition example_world : World FoodStore :=
  mkWorld example_store (fun _ => true) ∅ 0%nat [] ∅.

(** Inputs with which "Update Quantity" sets listing 3 to 7. *)
Definition example_ui : UiInputs :=
  mkUiInputs "Springfield" "Bread" 5 (2025, 12, 24) 1 "Restaurant" "Unknown"
    "Vegetarian" "Lunch" 7 3 1 2 1 "Pending" "Completed" 1 1.

(** The city query for Springfield and its answer on [example_store]. *)
Definition springfield_params : Params :=
  Some [VStr "Springfield"; VStr "Springfield"].

Definition springfield_table : DataFrame :=
  {| columns := ["Name"; "Type"; "Contact"; "Address"];
     rows := [[VStr "Joe's"; VStr "Restaurant"; VStr "555-0100"; VStr "1 Main St"]] |}.

(** The example world with the server down. *)
Definition offline_world : World FoodStore :=
  mkWorld example_store (fun _ => false) ∅ 0%nat [] ∅.

(** A batch of two updates of which the server rejects the second (its
    tuple lacks the identifier). *)
Definition half_bad_batch : list (list Value) :=
  [[VInt 7; VInt 3]; [VInt 7]].

(** Two reads of the insights tab: the city query with and without a
    filter. *)
Definition two_reads : list (string * Params) :=
  [ (sql_insight_3, springfield_params); (sql_insight_3, Some [VNone; VNone]) ].

(** The example listings with one more whose expiry text is not a date. *)
Definition listings_with_bad_date : list FoodRow :=
  example_listings ++ [example_listing 4 "Milk" "tomorrow"].

(** Inputs that pick a listing the table does not hold (number 99). *)
Definition stale_ui : UiInputs :=
  mkUiInputs "Springfield" "Bread" 5 (2025, 12, 24) 1 "Restaurant" "Unknown"
    "Vegetarian" "Lunch" 7 99 99 2 1 "Pending" "Completed" 1 1.

(** A claims table in which nothing is completed. *)
Definition open_claims : DataFrame :=
  claims_with_status ["Pending"; "Cancelled"; "Pending"].

(** A small table with missing cells: none in the first column, two in
    the second, one in the third. *)
Definition holey_table : DataFrame :=
  {| columns := ["Food_ID"; "Quantity"; "Location"];
     rows := [ [VInt 1; VNone; VStr "North"];
               [VInt 2; VInt 5; VNone];
               [VInt 3; VNone; VStr "South"] ] |}.

(** * Properties *)

(** ** The gateway *)

Section GatewayFacts.

Context {Store : Type}.
Variable globals : Config.
Variable pg_execute : string -> Params -> Store -> Exn + Store.
Variable pg_query : string -> Params -> Store -> Exn + DataFrame.

Lemma world_eq (w1 w2 : World Store) :
  committed w1 = committed w2 -> accepts w1 = accepts w2 ->
  sessions w1 = sessions w2 -> connect_calls w1 = connect_calls w2 ->
  wire w1 = wire w2 -> cache_data w1 = cache_data w2 -> w1 = w2.
Proof.
  destruct w1, w2; simpl; intros; subst; reflexivity.
Qed.

Lemma fresh_handle_unused (w : World Store) :
  sessions w !! fresh (dom (sessions w)) = None.
Proof.
  apply not_elem_of_dom. apply is_fresh.
Qed.

(** Running a list of statements on an open connection: the session
    moves to some state, which is the batch's final state when every
    statement is accepted; nothing else changes but the wire. *)
Lemma cur_executemany_run (h : nat) (query : string) (seq : list (list Value)) :
  forall (w : World Store) (s : Store),
    sessions w !! h = Some s ->
    exists s_mid,
      cur_executemany pg_execute h query seq w =
        (batch_outcome (pg_batch pg_execute query (map Some seq) s),
         set_sessions (<[h := s_mid]> (sessions w))
           (received (pg_received pg_execute query (map Some seq) s) w))
      /\ (forall s', pg_batch pg_execute query (map Some seq) s = inr s' -> s_mid = s').
Proof.
  induction seq as [|p rest IH]; intros w s Hs.
  - exists s. split.
    + unfold ret; simpl. f_equal. apply world_eq; simpl; auto.
      * symmetry. apply insert_id. exact Hs.
      * symmetry. apply app_nil_r.
    + simpl. intros s' E. congruence.
  - simpl. unfold bind, cur_execute at 1. rewrite Hs.
    destruct (pg_execute query (Some p) s) as [e|s1] eqn:E.
    + exists s. split; [|intros s' E'; discriminate].
      simpl. f_equal. apply world_eq; simpl; auto.
      symmetry. apply insert_id. exact Hs.
    + set (w1 := set_sessions _ _).
      destruct (IH w1 s1) as (s_mid & Hrun & Hfin).
      { unfold w1; simpl. apply lookup_insert_eq. }
      exists s_mid. split; [|exact Hfin].
      rewrite Hrun. f_equal. apply world_eq; unfold w1; simpl; auto.
      * apply insert_insert_eq.
      * rewrite <- app_assoc. reflexivity.
Qed.

Lemma cur_execute_run (h : nat) (query : string) (params : Params)
    (w : World Store) (s : Store) :
  sessions w !! h = Some s ->
  exists s_mid,
    cur_execute pg_execute h query params w =
      (batch_outcome (pg_batch pg_execute query [params] s),
       set_sessions (<[h := s_mid]> (sessions w))
         (received (pg_received pg_execute query [params] s) w))
    /\ (forall s', pg_batch pg_execute query [params] s = inr s' -> s_mid = s').
Proof.
  intros Hs. unfold cur_execute. rewrite Hs. simpl.
  destruct (pg_execute query params s) as [e|s1] eqn:E.
  - exists s. split; [|intros s' E'; discriminate].
    simpl. f_equal. apply world_eq; simpl; auto.
    symmetry. apply insert_id. exact Hs.
  - exists s1. split; [|intros s' E'; congruence].
    simpl. reflexivity.
Qed.

(** What [execute_sql] does, start to end. *)
Lemma execute_sql_run (query : string) (params : Params)
    (many : option (list (list Value))) (w : World Store) :
  execute_sql globals pg_execute query params many w =
    if accepts w (get_conn_args globals) then
      let batch := statements_of params many in
      let w2 := received (pg_received pg_execute query batch (committed w)) (attempted w) in
      match pg_batch pg_execute query batch (committed w) with
      | inr s' => (Returned tt, set_committed s' w2)
      | inl e => (Raised e, w2)
      end
    else (Raised OperationalError, attempted w).
Proof.
  unfold execute_sql, bind, get_conn.
  destruct (accepts w (get_conn_args globals)) eqn:Hup; [|reflexivity].
  set (h := fresh (dom (sessions w))).
  set (w1 := set_sessions _ _).
  assert (Hh : sessions w1 !! h = Some (committed w))
    by (unfold w1; simpl; apply lookup_insert_eq).
  assert (Hrun : exists s_mid,
    (match many with
     | Some seq => cur_executemany pg_execute h query seq
     | None => cur_execute pg_execute h query params
     end) w1 =
      (batch_outcome (pg_batch pg_execute query (statements_of params many) (committed w)),
       set_sessions (<[h := s_mid]> (sessions w1))
         (received (pg_received pg_execute query (statements_of params many) (committed w)) w1))
    /\ (forall s', pg_batch pg_execute query (statements_of params many) (committed w) = inr s'
                   -> s_mid = s')).
  { destruct many as [seq|]; simpl.
    - apply cur_executemany_run. exact Hh.
    - apply cur_execute_run. exact Hh. }
  destruct Hrun as (s_mid & Hrun & Hfin).
  unfold try_finally, with_conn. rewrite Hrun. cbv zeta.
  pose proof (fresh_handle_unused w) as Hfresh. fold h in Hfresh.
  destruct (pg_batch pg_execute query (statements_of params many) (committed w)) as [e|s'] eqn:E;
    simpl.
  - unfold conn_rollback; simpl. rewrite lookup_insert_eq. simpl.
    f_equal. apply world_eq; simpl; auto.
    rewrite !insert_insert_eq. apply delete_insert_id. exact Hfresh.
  - unfold conn_commit; simpl. rewrite lookup_insert_eq. simpl.
    rewrite (Hfin s' eq_refl).
    f_equal. apply world_eq; simpl; auto.
    rewrite !insert_insert_eq. apply delete_insert_id. exact Hfresh.
Qed.

(** What the body of [read_sql] does, start to end. *)
Lemma read_sql_body_run (query : string) (params : Params) (w : World Store) :
  read_sql_body globals pg_query query params w =
    if accepts w (get_conn_args globals) then
      let w2 := received [(query, params)] (attempted w) in
      match pg_query query params (committed w) with
      | inr df => (Returned df, w2)
      | inl e => (Raised e, w2)
      end
    else (Raised OperationalError, attempted w).
Proof.
  unfold read_sql_body, bind, get_conn.
  destruct (accepts w (get_conn_args globals)) eqn:Hup; [|reflexivity].
  pose proof (fresh_handle_unused w) as Hfresh.
  unfold try_finally, pd_read_sql; simpl. rewrite lookup_insert_eq.
  destruct (pg_query query params (committed w)) as [e|df]; simpl;
    f_equal; apply world_eq; simpl; auto;
    apply delete_insert_id; exact Hfresh.
Qed.

(** When the server accepts a whole batch, it has received each of its
    statements once, in order. *)
Lemma pg_received_all (query : string) (batch : list Params) :
  forall (s s' : Store),
    pg_batch pg_execute query batch s = inr s' ->
    pg_received pg_execute query batch s = map (fun p => (query, p)) batch.
Proof.
  induction batch as [|p rest IH]; intros s s' E; simpl in *.
  - reflexivity.
  - destruct (pg_execute query p s) as [e|s1]; [discriminate|].
    f_equal. eapply IH. exact E.
Qed.

(** C1. Every write issued through [execute_sql], a single parameter
    tuple or a batch of tuples, runs in one transaction: when the server
    accepts every statement the batch's final state is committed and the
    call returns; when any statement is rejected (or the connection cannot
    be opened) the committed store is left as it was and the error is
    raised to the caller. *)
Theorem execute_sql_atomic (query : string) (params : Params)
    (many : option (list (list Value))) (w : World Store) :
  let batch := statements_of params many in
  let r := execute_sql globals pg_execute query params many w in
  (forall s', accepts w (get_conn_args globals) = true ->
              pg_batch pg_execute query batch (committed w) = inr s' ->
              fst r = Returned tt /\ committed (snd r) = s')
  /\ (forall e, accepts w (get_conn_args globals) = true ->
                pg_batch pg_execute query batch (committed w) = inl e ->
                fst r = Raised e /\ committed (snd r) = committed w)
  /\ (accepts w (get_conn_args globals) = false ->
      fst r = Raised OperationalError /\ committed (snd r) = committed w)
  /\ (forall e, fst r = Raised e -> committed (snd r) = committed w).
Proof.
  cbv zeta. rewrite execute_sql_run. cbv zeta.
  destruct (accepts w (get_conn_args globals)) eqn:Hup.
  - destruct (pg_batch pg_execute query (statements_of params many) (committed w))
      as [e|s'] eqn:E; simpl.
    + repeat split; try discriminate; intros; congruence.
    + repeat split; try discriminate; intros; congruence.
  - simpl. repeat split; try discriminate; intros; congruence.
Qed.

(** Handles: the open sessions after each operation are those before it. *)
Lemma execute_sql_sessions (query : string) (params : Params)
    (many : option (list (list Value))) (w : World Store) :
  sessions (snd (execute_sql globals pg_execute query params many w)) = sessions w.
Proof.
  rewrite execute_sql_run. cbv zeta.
  destruct (accepts w (get_conn_args globals)); [|reflexivity].
  destruct (pg_batch pg_execute query (statements_of params many) (committed w));
    reflexivity.
Qed.

Lemma read_sql_body_sessions (query : string) (params : Params) (w : World Store) :
  sessions (snd (read_sql_body globals pg_query query params w)) = sessions w.
Proof.
  rewrite read_sql_body_run. cbv zeta.
  destruct (accepts w (get_conn_args globals)); [|reflexivity].
  destruct (pg_query query params (committed w)); reflexivity.
Qed.

Lemma read_sql_sessions (now : Q) (query : string) (params : Params) (w : World Store) :
  sessions (snd (read_sql globals pg_query now query params w)) = sessions w.
Proof.
  pose proof (read_sql_body_sessions query params w) as Hbody.
  unfold read_sql, st_cache_data.
  destruct (read_sql_body globals pg_query query params w) as [[df|e] w1];
    simpl in Hbody;
    destruct (cache_data w !! (query, params)) as [[stamp df0]|];
    try destruct (within_ttl 60 now stamp); simpl; auto.
Qed.

(** Outcomes: a call returns exactly when everything it did succeeded. *)
Lemma execute_sql_returns (query : string) (params : Params)
    (many : option (list (list Value))) (w : World Store) :
  fst (execute_sql globals pg_execute query params many w) = Returned tt <->
  accepts w (get_conn_args globals) = true
  /\ exists s', pg_batch pg_execute query (statements_of params many) (committed w) = inr s'.
Proof.
  rewrite execute_sql_run. cbv zeta.
  destruct (accepts w (get_conn_args globals)).
  - destruct (pg_batch pg_execute query (statements_of params many) (committed w))
      as [e|s']; simpl; split.
    + discriminate.
    + intros [_ [s0 H]]. discriminate.
    + intros _. split; [reflexivity|]. exists s'. reflexivity.
    + reflexivity.
  - simpl. split; [discriminate|]. intros [H _]. discriminate.
Qed.

Lemma read_sql_body_returns (query : string) (params : Params) (w : World Store)
    (df : DataFrame) :
  fst (read_sql_body globals pg_query query params w) = Returned df <->
  accepts w (get_conn_args globals) = true
  /\ pg_query query params (committed w) = inr df.
Proof.
  rewrite read_sql_body_run. cbv zeta.
  destruct (accepts w (get_conn_args globals)).
  - destruct (pg_query query params (committed w)) as [e|df']; simpl; split.
    + discriminate.
    + intros [_ H]. discriminate.
    + intros H. split; [reflexivity|]. congruence.
    + intros [_ H]. congruence.
  - simpl. split; [discriminate|]. intros [H _]. discriminate.
Qed.

(** C9. Every read and every write opens a connection handle of its own
    (one no other operation holds) and has released it when it exits, by
    return or by exception: the set of open handles is then what it was
    before the call. No error is swallowed: the call returns only when the
    connection was opened and the server accepted the work, and otherwise
    raises the error that occurred. *)
Theorem connection_released (query : string) (params : Params)
    (many : option (list (list Value))) (now : Q) (w : World Store) :
  let wr := execute_sql globals pg_execute query params many w in
  let rd := read_sql_body globals pg_query query params w in
  (forall h w1, get_conn globals w = (Returned h, w1) ->
                sessions w !! h = None /\ sessions w1 = <[h := committed w]> (sessions w))
  /\ sessions (snd wr) = sessions w
  /\ sessions (snd rd) = sessions w
  /\ sessions (snd (read_sql globals pg_query now query params w)) = sessions w
  /\ (fst wr = Returned tt <->
      accepts w (get_conn_args globals) = true
      /\ exists s', pg_batch pg_execute query (statements_of params many) (committed w) = inr s')
  /\ (forall df, fst rd = Returned df <->
      accepts w (get_conn_args globals) = true
      /\ pg_query query params (committed w) = inr df)
  /\ (accepts w (get_conn_args globals) = false ->
      fst wr = Raised OperationalError /\ fst rd = Raised OperationalError)
  /\ (forall e, accepts w (get_conn_args globals) = true ->
                pg_batch pg_execute query (statements_of params many) (committed w) = inl e ->
                fst wr = Raised e)
  /\ (forall e, accepts w (get_conn_args globals) = true ->
                pg_query query params (committed w) = inl e ->
                fst rd = Raised e).
Proof.
  cbv zeta.
  split.
  { unfold get_conn. intros h w1.
    destruct (accepts w (get_conn_args globals)); [|discriminate].
    intros E. injection E as <- <-. split.
    - apply fresh_handle_unused.
    - reflexivity. }
  split; [apply execute_sql_sessions|].
  split; [apply read_sql_body_sessions|].
  split; [apply read_sql_sessions|].
  split; [apply execute_sql_returns|].
  split; [intros df; apply read_sql_body_returns|].
  rewrite execute_sql_run, read_sql_body_run. cbv zeta.
  split; [|split].
  - intros ->. split; reflexivity.
  - intros e -> E. rewrite E. reflexivity.
  - intros e -> E. rewrite E. reflexivity.
Qed.

(** C10. When [many] is given, [params] plays no part: the call does the
    same whatever [params] is, and the server receives the statement once
    per tuple of [many], in order (up to the first one it rejects, all of
    them when it accepts all). Only when [many] is [None] is the statement
    sent once with [params]. *)
Theorem execute_sql_many_ignores_params (query : string) (seq : list (list Value))
    (params params' : Params) (w : World Store) :
  execute_sql globals pg_execute query params (Some seq) w
    = execute_sql globals pg_execute query params' (Some seq) w
  /\ (accepts w (get_conn_args globals) = true ->
      wire (snd (execute_sql globals pg_execute query params (Some seq) w))
        = wire w ++ pg_received pg_execute query (map Some seq) (committed w))
  /\ (forall s', accepts w (get_conn_args globals) = true ->
        pg_batch pg_execute query (map Some seq) (committed w) = inr s' ->
        wire (snd (execute_sql globals pg_execute query params (Some seq) w))
          = wire w ++ map (fun p => (query, Some p)) seq
        /\ committed (snd (execute_sql globals pg_execute query params (Some seq) w)) = s')
  /\ (accepts w (get_conn_args globals) = true ->
      wire (snd (execute_sql globals pg_execute query params None w))
        = wire w ++ [(query, params)]).
Proof.
  rewrite !execute_sql_run. cbv zeta. simpl statements_of.
  split; [reflexivity|].
  split; [|split].
  - intros ->.
    destruct (pg_batch pg_execute query (map Some seq) (committed w)); reflexivity.
  - intros s' -> E. rewrite E. simpl.
    rewrite (pg_received_all _ _ _ _ E). rewrite map_map. split; reflexivity.
  - intros ->. simpl.
    destruct (pg_execute query params (committed w)); reflexivity.
Qed.

(** C2. Once a call of [read_sql] has returned a table, the cache holds
    that table under the call's (query text, parameters) key, stamped with
    the time it was fetched (the time of the call itself unless the call
    was already served from the cache). Every later call with that key
    made before the stamp is 60 seconds old returns the same table and
    changes nothing: no connection is opened and no statement is sent. A
    call made once the stamp is 60 seconds old or more, like a call with a
    key the cache does not hold, runs the query against the store and, when
    it returns, replaces the entry under that key. *)
Theorem read_sql_cached (now1 : Q) (query : string) (params : Params)
    (w w1 : World Store) (df : DataFrame) :
  read_sql globals pg_query now1 query params w = (Returned df, w1) ->
  exists stamp,
    cache_data w1 !! (query, params) = Some (stamp, df)
    /\ (stamp = now1 \/ (w1 = w /\ (now1 < stamp + 60)%Q))
    /\ (forall now2, (now2 < stamp + 60)%Q ->
          read_sql globals pg_query now2 query params w1 = (Returned df, w1))
    /\ (forall now2, (stamp + 60 <= now2)%Q ->
          read_sql globals pg_query now2 query params w1 =
            match read_sql_body globals pg_query query params w1 with
            | (Returned df', w2) =>
                (Returned df',
                 set_cache_data (<[(query, params) := (now2, df')]> (cache_data w2)) w2)
            | (Raised e, w2) => (Raised e, w2)
            end)
    /\ (forall now2 query' params', cache_data w1 !! (query', params') = None ->
          read_sql globals pg_query now2 query' params' w1 =
            match read_sql_body globals pg_query query' params' w1 with
            | (Returned df', w2) =>
                (Returned df',
                 set_cache_data (<[(query', params') := (now2, df')]> (cache_data w2)) w2)
            | (Raised e, w2) => (Raised e, w2)
            end).
Proof.
  intros Hcall.
  assert (Hserve : forall stamp,
    cache_data w1 !! (query, params) = Some (stamp, df) ->
    (forall now2, (now2 < stamp + 60)%Q ->
          read_sql globals pg_query now2 query params w1 = (Returned df, w1))
    /\ (forall now2, (stamp + 60 <= now2)%Q ->
          read_sql globals pg_query now2 query params w1 =
            match read_sql_body globals pg_query query params w1 with
            | (Returned df', w2) =>
                (Returned df',
                 set_cache_data (<[(query, params) := (now2, df')]> (cache_data w2)) w2)
            | (Raised e, w2) => (Raised e, w2)
            end)).
  { intros stamp Hentry. split; intros now2 Hnow;
      unfold read_sql, st_cache_data, within_ttl; rewrite Hentry;
      destruct (Qlt_le_dec now2 (stamp + 60)) as [Hlt|Hle]; try reflexivity.
    - exfalso. exact (Qlt_not_le _ _ Hnow Hle).
    - exfalso. exact (Qlt_not_le _ _ Hlt Hnow). }
  assert (Hunseen : forall now2 query' params',
    cache_data w1 !! (query', params') = None ->
    read_sql globals pg_query now2 query' params' w1 =
      match read_sql_body globals pg_query query' params' w1 with
      | (Returned df', w2) =>
          (Returned df',
           set_cache_data (<[(query', params') := (now2, df')]> (cache_data w2)) w2)
      | (Raised e, w2) => (Raised e, w2)
      end).
  { intros now2 query' params' Hnone. unfold read_sql, st_cache_data.
    rewrite Hnone. reflexivity. }
  assert (Hmiss :
    match read_sql_body globals pg_query query params w with
    | (Returned df', w2) =>
        (Returned df',
         set_cache_data (<[(query, params) := (now1, df')]> (cache_data w2)) w2)
    | (Raised e, w2) => (Raised e, w2)
    end = (Returned df, w1) ->
    cache_data w1 !! (query, params) = Some (now1, df)).
  { destruct (read_sql_body globals pg_query query params w) as [[df'|e] w2];
      [|discriminate].
    intros E. injection E as <- <-. simpl. apply lookup_insert_eq. }
  unfold read_sql, st_cache_data in Hcall.
  destruct (cache_data w !! (query, params)) as [[stamp0 df0]|] eqn:Hentry.
  - destruct (within_ttl 60 now1 stamp0) eqn:Hlive.
    + injection Hcall as <- <-.
      exists stamp0. split; [exact Hentry|]. split.
      * right. split; [reflexivity|].
        unfold within_ttl in Hlive.
        destruct (Qlt_le_dec now1 (stamp0 + 60)); [assumption|discriminate].
      * destruct (Hserve stamp0 Hentry) as [H1 H2]. auto.
    + exists now1. pose proof (Hmiss Hcall) as Hnew.
      split; [exact Hnew|]. split; [left; reflexivity|].
      destruct (Hserve now1 Hnew) as [H1 H2]. auto.
  - exists now1. pose proof (Hmiss Hcall) as Hnew.
    split; [exact Hnew|]. split; [left; reflexivity|].
    destruct (Hserve now1 Hnew) as [H1 H2]. auto.
Qed.

(** X1. Writes do not invalidate the cache: [execute_sql] leaves every cache
    entry as it was, so a read of a key cached less than 60 seconds ago
    still returns the table fetched before the write. *)
Theorem execute_sql_keeps_cache (query : string) (params : Params)
    (many : option (list (list Value))) (w : World Store)
    (now : Q) (query' : string) (params' : Params) :
  let w' := snd (execute_sql globals pg_execute query params many w) in
  cache_data w' = cache_data w
  /\ (forall stamp df,
        cache_data w !! (query', params') = Some (stamp, df) ->
        (now < stamp + 60)%Q ->
        read_sql globals pg_query now query' params' w' = (Returned df, w')).
Proof.
  cbv zeta.
  assert (Hcache : cache_data (snd (execute_sql globals pg_execute query params many w))
                   = cache_data w).
  { rewrite execute_sql_run. cbv zeta.
    destruct (accepts w (get_conn_args globals)); [|reflexivity].
    destruct (pg_batch pg_execute query (statements_of params many) (committed w));
      reflexivity. }
  split; [exact Hcache|].
  intros stamp df Hentry Hnow.
  unfold read_sql, st_cache_data, within_ttl. rewrite Hcache, Hentry.
  destruct (Qlt_le_dec now (stamp + 60)) as [Hlt|Hle]; [reflexivity|].
  exfalso. exact (Qlt_not_le _ _ Hnow Hle).
Qed.

End GatewayFacts.

(** ** Connection provisioner *)

(** C3 (the code departs from the claim). [get_conn] connects with the
    same five literals whatever the sidebar configuration is: two
    configurations give the same connection arguments and the same
    connection attempt, and with [remote_config] entered the host is still
    [localhost], the database [foodapp], the user [postgres] and the
    port [5432]. *)
Theorem get_conn_ignores_config {Store : Type} (g1 g2 : Config) (w : World Store) :
  get_conn_args g1 = get_conn_args g2
  /\ get_conn g1 w = get_conn g2 w
  /\ host (get_conn_args remote_config) = "localhost"
  /\ host (get_conn_args remote_config) <> DB_HOST remote_config
  /\ dbname (get_conn_args remote_config) <> DB_NAME remote_config
  /\ user (get_conn_args remote_config) <> DB_USER remote_config
  /\ password (get_conn_args remote_config) <> DB_PASS remote_config
  /\ port (get_conn_args remote_config) <> VInt (DB_PORT remote_config)
  /\ port (get_conn_args remote_config) <> VStr "6543".
Proof.
  split; [reflexivity|].
  split; [reflexivity|].
  split; [reflexivity|].
  repeat split; simpl; discriminate.
Qed.

(** ** The city filter of insight 3 *)

Lemma insight_3_where_none (r : ProviderRow) : insight_3_where None r = true.
Proof.
  unfold insight_3_where. simpl. destruct (p_City r); reflexivity.
Qed.

Lemma insight_3_where_some (s : string) (r : ProviderRow) :
  insight_3_where (Some s) r = true <-> p_City r = Some s.
Proof.
  unfold insight_3_where. simpl.
  destruct (p_City r) as [c|]; simpl.
  - destruct (String.eqb c s) eqn:E; simpl.
    + apply String.eqb_eq in E. subst. split; reflexivity.
    + apply String.eqb_neq in E. split; [discriminate|]. intros H. congruence.
  - split; discriminate.
Qed.

Lemma insight_3_where_decide (s : string) (r : ProviderRow) :
  insight_3_where (Some s) r = bool_decide (p_City r = Some s).
Proof.
  destruct (insight_3_where (Some s) r) eqn:E; symmetry.
  - apply bool_decide_eq_true. apply insight_3_where_some. exact E.
  - apply bool_decide_eq_false. intros H.
    apply insight_3_where_some in H. congruence.
Qed.

Lemma filter_all {A} (f : A -> bool) (l : list A) :
  (forall x, f x = true) -> List.filter f l = l.
Proof.
  intros Hf. induction l as [|x l IH]; simpl.
  - reflexivity.
  - rewrite Hf, IH. reflexivity.
Qed.

(** C4, as stated, fails on a filter of blanks. With two spaces typed in
    the sidebar the bound parameter is the empty string, not [None]; the
    query then returns no provider of [two_providers]: neither all of
    them (what the claim promises for an empty filter parameter) nor the
    one whose city equals what was typed (what it promises for a non-empty
    filter string). *)
Lemma city_filter_blank_input :
  provider_city "  " = Some ""
  /\ insight_3_rows (provider_city "  ") two_providers = []
  /\ insight_3_rows (Some "") two_providers <> two_providers
  /\ insight_3_rows (provider_city "  ") two_providers
       <> List.filter (fun r => bool_decide (p_City r = Some "  ")) two_providers.
Proof.
  split; [reflexivity|].
  split; [reflexivity|].
  split; vm_compute; discriminate.
Qed.

(** C4, amended. An empty sidebar input binds [None], and with [None]
    bound the query returns every provider. An input with a non-blank
    character binds the input stripped of surrounding whitespace, and with
    a non-empty string bound the query returns exactly the providers whose
    city equals that string, in table order: never one whose city is NULL
    or merely contains it. Both cases run the one predicate
    [(filter IS NULL) OR ("City" = filter)]. *)
Theorem city_filter_exact (table : list ProviderRow) :
  provider_city "" = None
  /\ insight_3_rows None table = table
  /\ rows (insight_3 None table)
       = map (fun r => [p_Name r; p_Type r; p_Contact r; p_Address r]) table
  /\ (forall input, strip input <> "" -> provider_city input = Some (strip input))
  /\ (forall s, s <> "" ->
        forall r, In r (insight_3_rows (Some s) table) <-> In r table /\ p_City r = Some s)
  /\ (forall s, s <> "" ->
        insight_3_rows (Some s) table
        = List.filter (fun r => bool_decide (p_City r = Some s)) table).
Proof.
  split; [reflexivity|].
  assert (Hall : insight_3_rows None table = table)
    by (apply filter_all, insight_3_where_none).
  split; [exact Hall|].
  split; [unfold insight_3; simpl; rewrite Hall; reflexivity|].
  split; [|split].
  - intros [|c rest] Hstrip.
    + exfalso. apply Hstrip. reflexivity.
    + reflexivity.
  - intros s _ r. unfold insight_3_rows. rewrite filter_In.
    rewrite insight_3_where_some. reflexivity.
  - intros s _. unfold insight_3_rows.
    apply filter_ext. intros r. apply insight_3_where_decide.
Qed.

(** ** The success-rate KPI *)

Lemma series_sum_count (cells : list Value) (v : Value) :
  series_sum (series_eq cells v)
  = Z.of_nat (length (List.filter (fun c => bool_decide (c = v)) cells)).
Proof.
  unfold series_sum, series_eq.
  induction cells as [|c cells IH].
  - reflexivity.
  - cbn [map fold_right List.filter]. rewrite IH.
    destruct (bool_decide (c = v)); cbn [length]; lia.
Qed.

Lemma count_completed_le (cells : list Value) :
  (count_completed cells <= length cells)%nat.
Proof.
  unfold count_completed. apply filter_length_le.
Qed.

Lemma df_column_length (df : DataFrame) (name : string) (cells : list Value) :
  df_column df name = Some cells -> length cells = length (rows df).
Proof.
  unfold df_column. destruct (index_of name (columns df)); [|discriminate].
  intros E. injection E as <-. apply length_map.
Qed.

(** C5, as stated, fails whenever the quotient has more than two
    decimals. With one claim completed out of three the KPI is the float
    33.33: its exact value times 3 is not 100, and it is not the float
    [100 * 1 / 3] (33.333333333333336) either. *)
Lemma success_rate_one_third :
  success_rate three_claims = py_truediv 3333 100
  /\ ~ (float_value (success_rate three_claims) * 3 == 100)%Q
  /\ success_rate three_claims <> unrounded_rate three_claims
  /\ unrounded_rate three_claims = py_truediv 100 3.
Proof.
  split; [vm_compute; reflexivity|].
  split; [vm_compute; discriminate|].
  split; [vm_compute; discriminate|].
  vm_compute; reflexivity.
Qed.

(** C5, amended. The success-rate KPI is 0.0 when the claims table is
    empty; otherwise it is [100 * completed / total] rounded to two
    decimals by [round], where [total] is the number of rows and
    [completed] the number of rows whose [Status] cell is ["Completed"]
    (zero when the table has no [Status] column), so completed is at most
    total. For claims [Completed, Completed, Pending, Cancelled] it is
    50.0 and for no claims it is 0.0. *)
Theorem success_rate_rounded (claims : DataFrame) :
  let total := Z.of_nat (length (rows claims)) in
  let completed :=
    match df_column claims "Status" with
    | Some cells => Z.of_nat (count_completed cells)
    | None => 0
    end in
  success_rate claims
    = (if total =? 0 then S754_zero false
       else py_round (py_truediv (100 * completed) total) 2)
  /\ 0 <= completed <= total
  /\ (rows claims = [] -> success_rate claims = S754_zero false)
  /\ success_rate four_claims = py_float 50
  /\ (float_value (success_rate four_claims) == 50)%Q
  /\ success_rate (claims_with_status []) = S754_zero false.
Proof.
  cbv zeta. unfold success_rate, total_claims, df_len, completed_claims.
  split; [|split; [|split]].
  - destruct (df_column claims "Status") as [cells|]; [|reflexivity].
    rewrite series_sum_count. reflexivity.
  - destruct (df_column claims "Status") as [cells|] eqn:E; [|lia].
    pose proof (count_completed_le cells) as Hle.
    rewrite <- (df_column_length _ _ _ E). lia.
  - intros ->. reflexivity.
  - split; [vm_compute; reflexivity|].
    split; vm_compute; reflexivity.
Qed.

(** On every table of at most sixty claims the KPI is within half a
    hundredth of the exact quotient (up to the float's representation
    error); checked by evaluation. *)
Lemma success_rate_close_small : close_up_to 60 = true.
Proof. vm_compute. reflexivity. Qed.

(** ** The nearest-expiry query *)

Lemma date_ltb_spec (a b : Date) :
  date_ltb a b = true <->
  year a < year b
  \/ (year a = year b
      /\ (month a < month b \/ (month a = month b /\ day a < day b))).
Proof.
  unfold date_ltb.
  rewrite !orb_true_iff, !andb_true_iff, !orb_true_iff, !andb_true_iff.
  rewrite !Z.ltb_lt, !Z.eqb_eq. reflexivity.
Qed.

Lemma date_leb_spec (a b : Date) :
  date_leb a b = true <-> ~ (date_ltb b a = true).
Proof.
  unfold date_leb. destruct (date_ltb b a); simpl; split; congruence.
Qed.

Lemma date_leb_total (a b : Date) :
  date_leb a b = false -> date_leb b a = true.
Proof.
  intros H. apply date_leb_spec. intros Hab.
  assert (Hba : date_ltb b a = true).
  { unfold date_leb in H. apply negb_false_iff in H. exact H. }
  apply date_ltb_spec in Hab. apply date_ltb_spec in Hba. lia.
Qed.

Lemma date_leb_trans (a b c : Date) :
  date_leb a b = true -> date_leb b c = true -> date_leb a c = true.
Proof.
  rewrite !date_leb_spec, !date_ltb_spec. lia.
Qed.

Lemma date_leb_refl (a : Date) : date_leb a a = true.
Proof.
  rewrite date_leb_spec, date_ltb_spec. lia.
Qed.

Section Insight15Facts.

Variable date_in : string -> option Date.

(** The scan pairs every row of the table with its cast date. *)
Lemma scan_expiry_rows (table : list FoodRow) :
  forall scanned, scan_expiry date_in table = inr scanned ->
    forall od r, In (od, r) scanned <->
      In r table /\ cast_date date_in (fl_Expiry_Date r) = inr od.
Proof.
  induction table as [|r0 table IH]; intros scanned E od r; simpl in E.
  - injection E as <-. simpl. tauto.
  - destruct (cast_date date_in (fl_Expiry_Date r0)) as [e|d0] eqn:E0; [discriminate|].
    destruct (scan_expiry date_in table) as [e|rest]; [discriminate|].
    injection E as <-. simpl. rewrite (IH rest eq_refl). split.
    + intros [H|H].
      * injection H as <- <-. auto.
      * destruct H as [H1 H2]. auto.
    + intros [[<-|H1] H2].
      * left. congruence.
      * right. auto.
Qed.

Lemma future_rows_spec (today : Date) (scanned : list (option Date * FoodRow)) :
  forall d r, In (d, r) (future_rows today scanned) <->
    In (Some d, r) scanned /\ date_ltb today d = true.
Proof.
  induction scanned as [|[[d0|] r0] rest IH]; intros d r; simpl.
  - tauto.
  - destruct (date_ltb today d0) eqn:E; simpl; rewrite IH; split.
    + intros [H|[H1 H2]]; [injection H as <- <-|]; auto.
    + intros [[H|H] H2]; [injection H as <- <-|]; auto.
    + intros [H1 H2]. auto.
    + intros [[H|H] H2]; [injection H as <- <-; congruence|]. auto.
  - rewrite IH. split.
    + intros [H1 H2]. auto.
    + intros [[H|H] H2]; [discriminate|]. auto.
Qed.

Lemma insert_by_date_in (x : Date * FoodRow) (l : list (Date * FoodRow)) :
  forall y, In y (insert_by_date x l) <-> y = x \/ In y l.
Proof.
  induction l as [|z l IH]; intros y; simpl.
  - split; [intros [H|[]]; auto | intros [H|[]]; auto].
  - destruct (date_leb (fst x) (fst z)); simpl.
    + split; [intros [H|H]; auto | intros [H|H]; auto].
    + rewrite IH. split; [intros [H|[H|H]]; auto | intros [H|[H|H]]; auto].
Qed.

Lemma order_by_date_in (l : list (Date * FoodRow)) :
  forall y, In y (order_by_date l) <-> In y l.
Proof.
  induction l as [|x l IH]; intros y; simpl.
  - tauto.
  - rewrite insert_by_date_in, IH. split; [intros [H|H]; auto | intros [H|H]; auto].
Qed.

Lemma insert_by_date_least (x : Date * FoodRow) (l : list (Date * FoodRow)) :
  first_is_least l -> first_is_least (insert_by_date x l).
Proof.
  destruct l as [|z l]; simpl.
  - intros _ y [<-|[]]. apply date_leb_refl.
  - intros Hz. destruct (date_leb (fst x) (fst z)) eqn:E; simpl.
    + intros y [<-|H].
      * apply date_leb_refl.
      * apply (date_leb_trans _ (fst z)); [exact E|]. apply Hz. exact H.
    + intros y [<-|H].
      * apply date_leb_refl.
      * apply insert_by_date_in in H. destruct H as [->|H].
        -- apply date_leb_total. exact E.
        -- apply Hz. right. exact H.
Qed.

Lemma order_by_date_least (l : list (Date * FoodRow)) :
  first_is_least (order_by_date l).
Proof.
  induction l as [|x l IH]; simpl.
  - exact I.
  - apply insert_by_date_least. exact IH.
Qed.

Lemma scan_expiry_returns (table : list FoodRow) :
  expiry_texts_valid date_in table -> exists scanned, scan_expiry date_in table = inr scanned.
Proof.
  induction table as [|r table IH]; intros Hvalid; simpl.
  - exists []. reflexivity.
  - destruct IH as [scanned Hscan].
    { intros r' text Hr'. apply Hvalid. right. exact Hr'. }
    rewrite Hscan. unfold cast_date.
    destruct (fl_Expiry_Date r) as [text|] eqn:Htext.
    + destruct (date_in text) as [d|] eqn:Hd.
      * eexists. reflexivity.
      * exfalso. apply (Hvalid r text); [left; reflexivity|exact Htext|exact Hd].
    + eexists. reflexivity.
Qed.

(** What insight 15 returns, when it returns. *)
Lemma insight_15_rows_spec (today : Date) (table : list FoodRow)
    (picked : list (Date * FoodRow)) :
  insight_15_rows date_in today table = inr picked ->
  (length picked <= 1)%nat
  /\ (forall d r, In (d, r) picked ->
        In r table
        /\ cast_date date_in (fl_Expiry_Date r) = inr (Some d)
        /\ date_ltb today d = true
        /\ forall r' d', In r' table ->
             cast_date date_in (fl_Expiry_Date r') = inr (Some d') ->
             date_ltb today d' = true ->
             date_leb d d' = true)
  /\ ((exists r' d', In r' table
         /\ cast_date date_in (fl_Expiry_Date r') = inr (Some d')
         /\ date_ltb today d' = true) ->
      length picked = 1%nat)
  /\ insight_15 date_in today table
       = inr {| columns := ["Food_Name"; "Expiry_Date"; "Quantity"];
                rows := map (fun x => [ fl_Food_Name (snd x);
                                        str_or_none (fl_Expiry_Date (snd x));
                                        int_or_none (fl_Quantity (snd x)) ])
                          picked |}.
Proof.
  unfold insight_15, insight_15_rows.
  destruct (scan_expiry date_in table) as [e|scanned] eqn:Hscan; [discriminate|].
  intros E. injection E as <-.
  pose proof (scan_expiry_rows table scanned Hscan) as Hrows.
  pose proof (future_rows_spec today scanned) as Hfut.
  pose proof (order_by_date_in (future_rows today scanned)) as Hin.
  pose proof (order_by_date_least (future_rows today scanned)) as Hleast.
  destruct (order_by_date (future_rows today scanned)) as [|x sorted] eqn:Hsorted;
    simpl.
  - split; [lia|]. split; [intros d r []|]. split; [|reflexivity].
    intros (r' & d' & Hr' & Hcast & Hlt).
    assert (Hmem : In (d', r') []).
    { apply Hin, Hfut. split; [|exact Hlt]. apply Hrows. auto. }
    destruct Hmem.
  - split; [lia|]. split; [|split; [reflexivity|reflexivity]].
    intros d r [->|[]].
    assert (Hx : In (d, r) (future_rows today scanned)) by (apply Hin; left; reflexivity).
    apply Hfut in Hx. destruct Hx as [Hx Hlt].
    apply Hrows in Hx. destruct Hx as [Hr Hcast].
    repeat split; auto.
    intros r' d' Hr' Hcast' Hlt'.
    apply (Hleast (d', r')). apply Hin, Hfut.
    split; [|exact Hlt']. apply Hrows. auto.
Qed.

(** C6. On a table whose expiry texts are all dates, insight 15 returns,
    and returns at most one row: a listing of the table whose expiry text
    casts to a date strictly after the current date and no later than the
    expiry date of any other such listing. It returns such a row whenever
    some listing expires after the current date. *)
Theorem insight_15_nearest (today : Date) (table : list FoodRow) :
  expiry_texts_valid date_in table ->
  exists picked,
    insight_15_rows date_in today table = inr picked
    /\ (length picked <= 1)%nat
    /\ (forall d r, In (d, r) picked ->
          In r table
          /\ cast_date date_in (fl_Expiry_Date r) = inr (Some d)
          /\ date_ltb today d = true
          /\ forall r' d', In r' table ->
               cast_date date_in (fl_Expiry_Date r') = inr (Some d') ->
               date_ltb today d' = true ->
               date_leb d d' = true)
    /\ ((exists r' d', In r' table
           /\ cast_date date_in (fl_Expiry_Date r') = inr (Some d')
           /\ date_ltb today d' = true) ->
        length picked = 1%nat)
    /\ insight_15 date_in today table
         = inr {| columns := ["Food_Name"; "Expiry_Date"; "Quantity"];
                  rows := map (fun x => [ fl_Food_Name (snd x);
                                          str_or_none (fl_Expiry_Date (snd x));
                                          int_or_none (fl_Quantity (snd x)) ])
                            picked |}.
Proof.
  intros Hvalid.
  destruct (scan_expiry_returns table Hvalid) as [scanned Hscan].
  exists (firstn 1 (order_by_date (future_rows today scanned))).
  assert (Hrun : insight_15_rows date_in today table
                 = inr (firstn 1 (order_by_date (future_rows today scanned)))).
  { unfold insight_15_rows. rewrite Hscan. reflexivity. }
  split; [exact Hrun|].
  exact (insight_15_rows_spec today table _ Hrun).
Qed.

End Insight15Facts.

(** The example of the claim: the Soup row, expiring 2025-11-15. *)
Lemma insight_15_example :
  insight_15_rows iso_date june_first example_listings
    = inr [(mkDate 2025 11 15, example_listing 3 "Soup" "2025-11-15")]
  /\ insight_15 iso_date june_first example_listings
    = inr {| columns := ["Food_Name"; "Expiry_Date"; "Quantity"];
             rows := [[VStr "Soup"; VStr "2025-11-15"; VInt 10]] |}.
Proof.
  split; vm_compute; reflexivity.
Qed.

(** The example table meets the hypothesis of [insight_15_nearest]: its
    three expiry texts are ISO dates. *)
Lemma insight_15_nearest_witness :
  exists picked,
    insight_15_rows iso_date june_first example_listings = inr picked
    /\ (forall d r, In (d, r) picked -> date_ltb june_first d = true).
Proof.
  assert (Hvalid : expiry_texts_valid iso_date example_listings).
  { intros r text [<-|[<-|[<-|[]]]] E; injection E as <-; vm_compute; discriminate. }
  destruct (insight_15_nearest iso_date june_first example_listings Hvalid)
    as (picked & Hrun & _ & Hpicked & _).
  exists picked. split; [exact Hrun|].
  intros d r Hin. destruct (Hpicked d r Hin) as (_ & _ & Hlt & _). exact Hlt.
Defined.

(** ** The update-quantity write *)

Lemma update_quantity_twice (q food_id : Z) (s : FoodStore) :
  update_quantity q food_id (update_quantity q food_id s) = update_quantity q food_id s.
Proof.
  unfold update_quantity. simpl. f_equal.
  rewrite map_map. apply map_ext. intros r.
  destruct (sql_where (sql_eq_int (fl_Food_ID r) (Some food_id))) eqn:E.
  - simpl. rewrite E. reflexivity.
  - rewrite E. reflexivity.
Qed.

Section UpdateQuantityFacts.

Variable globals : Config.
Variable pg_execute : string -> Params -> FoodStore -> Exn + FoodStore.

(** The server runs the update statement as SQL defines it. *)
Hypothesis pg_execute_update :
  forall q food_id s,
    pg_execute sql_update_quantity (Some [VInt q; VInt food_id]) s
    = inr (update_quantity q food_id s).

(** C7. Pressing "Update Quantity" twice with the same listing and the
    same new quantity leaves the committed store as pressing it once does
    (and the second call ends as the first did, with the same open
    handles and the same cache). *)
Theorem update_quantity_idempotent (ui : UiInputs) (w : World FoodStore) :
  let stmt := crud_statement UpdateQuantity ui in
  let once := execute_sql globals pg_execute (fst stmt) (snd stmt) None w in
  let twice := execute_sql globals pg_execute (fst stmt) (snd stmt) None (snd once) in
  committed (snd twice) = committed (snd once)
  /\ fst twice = fst once
  /\ sessions (snd twice) = sessions (snd once)
  /\ cache_data (snd twice) = cache_data (snd once)
  /\ (accepts w (get_conn_args globals) = true ->
      fst once = Returned tt
      /\ committed (snd once)
         = update_quantity (new_qty ui) (picked_food_id ui) (committed w)).
Proof.
  cbv zeta. simpl crud_statement. cbn [fst snd].
  rewrite !execute_sql_run. cbv zeta. simpl statements_of.
  destruct (accepts w (get_conn_args globals)) eqn:Hup; cbn [pg_batch pg_received].
  - rewrite pg_execute_update. cbn [snd fst accepts received attempted set_wire
      set_connect_calls set_committed committed].
    rewrite Hup. rewrite pg_execute_update. cbn.
    rewrite update_quantity_twice. repeat split; reflexivity.
  - cbn. rewrite Hup. cbn. repeat split; try reflexivity; discriminate.
Qed.

End UpdateQuantityFacts.

(** [crud_execute] is such a server; on the example world, setting the
    quantity of listing 3 to 7 twice commits what setting it once does. *)
Lemma update_quantity_idempotent_witness :
  committed (snd (execute_sql remote_config crud_execute sql_update_quantity
                    (Some [VInt 7; VInt 3]) None
                    (snd (execute_sql remote_config crud_execute sql_update_quantity
                            (Some [VInt 7; VInt 3]) None example_world))))
  = committed (snd (execute_sql remote_config crud_execute sql_update_quantity
                      (Some [VInt 7; VInt 3]) None example_world)).
Proof.
  assert (Hupdate : forall q food_id s,
    crud_execute sql_update_quantity (Some [VInt q; VInt food_id]) s
    = inr (update_quantity q food_id s)) by (intros; reflexivity).
  exact (proj1 (update_quantity_idempotent remote_config crud_execute Hupdate
                  example_ui example_world)).
Defined.

(** ** Parameter binding *)

(** C8. Whatever the operator enters, the texts of the statements the
    script sends are the same: the inputs reach the server only as bound
    values, one for each positional placeholder of the statement. The one
    text built by interpolation is that of insight 15, where [date_expr]
    is applied to the literal [Expiry_Date] (twice), giving a text that
    depends on no input. *)
Theorem statement_texts_fixed (ui ui' : UiInputs) :
  map fst (all_calls ui) = map fst (all_calls ui')
  /\ Forall (fun call => placeholders (fst call) = bound_values (snd call))
       (all_calls ui)
  /\ nth_error (tab_queries ui) 14 = Some (sql_insight_15, None)
  /\ sql_insight_15 =
       "
        SELECT " +:+ qi "Food_Name" +:+ ", " +:+ qi "Expiry_Date" +:+ ", " +:+ qi "Quantity" +:+ "
        FROM food_listings
        WHERE " +:+ qi "Expiry_Date" +:+ "::date > CURRENT_DATE
        ORDER BY " +:+ qi "Expiry_Date" +:+ "::date ASC
        LIMIT 1;
        "
  /\ nth_error (tab_queries ui) 2
       = Some (sql_insight_3,
               Some [str_or_none (provider_city (city_filter ui));
                     str_or_none (provider_city (city_filter ui))])
  /\ (forall a, fst (crud_statement a ui) = fst (crud_statement a ui')).
Proof.
  split; [reflexivity|].
  split.
  { unfold all_calls, preload_queries, tab_queries, crud_queries. simpl app.
    repeat (constructor; [vm_compute; reflexivity|]).
    constructor. }
  split; [reflexivity|].
  split; [vm_compute; reflexivity|].
  split; [reflexivity|].
  intros a. destruct a; reflexivity.
Qed.

(** ** The cached read, on the example *)

(** A first call at time 0 fetches the Springfield providers; a call 59
    seconds later gets the same table and leaves the world as it was. *)
Lemma read_sql_cached_witness :
  let first := read_sql remote_config crud_query 0 sql_insight_3 springfield_params
                 example_world in
  fst first = Returned springfield_table
  /\ read_sql remote_config crud_query 59 sql_insight_3 springfield_params (snd first)
     = (Returned springfield_table, snd first).
Proof.
  cbv zeta.
  set (first := read_sql remote_config crud_query 0 sql_insight_3 springfield_params
                  example_world).
  assert (Hfst : fst first = Returned springfield_table) by (vm_compute; reflexivity).
  assert (Hcall : first = (Returned springfield_table, snd first)).
  { rewrite <- Hfst. destruct first; reflexivity. }
  split; [exact Hfst|].
  destruct (read_sql_cached remote_config crud_query 0 sql_insight_3 springfield_params
              example_world (snd first) springfield_table Hcall)
    as (stamp & Hentry & Hstamp & Hhit & _).
  apply Hhit.
  destruct Hstamp as [->|[Hsame _]].
  - vm_compute. reflexivity.
  - rewrite Hsame in Hentry. simpl in Hentry. rewrite lookup_empty in Hentry.
    discriminate.
Defined.

(** ** More on the gateway: frames, retries, reruns, batches *)

Section GatewayFrames.

Context {Store : Type}.
Variable globals : Config.
Variable pg_execute : string -> Params -> Store -> Exn + Store.
Variable pg_query : string -> Params -> Store -> Exn + DataFrame.

(** The body of [read_sql] touches neither the committed store nor the
    cache; it counts one connection attempt. *)
Lemma read_sql_body_frame (query : string) (params : Params) (w : World Store) :
  let r := read_sql_body globals pg_query query params w in
  committed (snd r) = committed w
  /\ accepts (snd r) = accepts w
  /\ cache_data (snd r) = cache_data w
  /\ connect_calls (snd r) = S (connect_calls w)
  /\ (wire (snd r) = wire w \/ wire (snd r) = wire w ++ [(query, params)]).
Proof.
  cbv zeta. rewrite read_sql_body_run. cbv zeta.
  destruct (accepts w (get_conn_args globals)).
  - destruct (pg_query query params (committed w)); simpl; auto 10.
  - simpl. auto 10.
Qed.

(** A cached entry that is still live is what [read_sql] returns. *)
Lemma read_sql_hit (now : Q) (query : string) (params : Params) (w : World Store)
    (stamp : Q) (df : DataFrame) :
  cache_data w !! (query, params) = Some (stamp, df) ->
  (now < stamp + 60)%Q ->
  read_sql globals pg_query now query params w = (Returned df, w).
Proof.
  intros Hentry Hnow. unfold read_sql, st_cache_data, within_ttl. rewrite Hentry.
  destruct (Qlt_le_dec now (stamp + 60)) as [Hlt|Hle]; [reflexivity|].
  exfalso. exact (Qlt_not_le _ _ Hnow Hle).
Qed.

(** X2. A read never writes: whether [read_sql] is served from the
    cache, answered by the server or fails, the committed store and the
    reachable servers are what they were, at most one connection is
    attempted, and at most the read's own statement is sent. *)
Theorem read_sql_never_writes (now : Q) (query : string) (params : Params)
    (w : World Store) :
  let r := read_sql globals pg_query now query params w in
  committed (snd r) = committed w
  /\ accepts (snd r) = accepts w
  /\ (connect_calls (snd r) = connect_calls w
      \/ connect_calls (snd r) = S (connect_calls w))
  /\ (wire (snd r) = wire w \/ wire (snd r) = wire w ++ [(query, params)]).
Proof.
  cbv zeta.
  pose proof (read_sql_body_frame query params w) as Hbody. cbv zeta in Hbody.
  destruct Hbody as (Hc & Ha & _ & Hn & Hw).
  unfold read_sql, st_cache_data.
  destruct (read_sql_body globals pg_query query params w) as [[df|e] w1];
    simpl in Hc, Ha, Hn, Hw;
    destruct (cache_data w !! (query, params)) as [[stamp df0]|];
    try destruct (within_ttl 60 now stamp); simpl; auto.
Qed.

(** X3. A read changes the cache at its own key only: either the cache
    is left as it was, or the table just returned is stored under the
    call's (query text, parameters) key with the time of the call; the
    entry of every other key is untouched. *)
Theorem read_sql_cache_frame (now : Q) (query : string) (params : Params)
    (w : World Store) :
  let r := read_sql globals pg_query now query params w in
  (cache_data (snd r) = cache_data w
   \/ exists df, fst r = Returned df
        /\ cache_data (snd r) = <[(query, params) := (now, df)]> (cache_data w))
  /\ (forall key, key <> (query, params) ->
        cache_data (snd r) !! key = cache_data w !! key).
Proof.
  cbv zeta.
  assert (Hstep :
    cache_data (snd (read_sql globals pg_query now query params w)) = cache_data w
    \/ exists df, fst (read_sql globals pg_query now query params w) = Returned df
         /\ cache_data (snd (read_sql globals pg_query now query params w))
            = <[(query, params) := (now, df)]> (cache_data w)).
  { pose proof (read_sql_body_frame query params w) as Hbody. cbv zeta in Hbody.
    destruct Hbody as (_ & _ & Hcache & _).
    unfold read_sql, st_cache_data.
    destruct (read_sql_body globals pg_query query params w) as [[df|e] w1];
      simpl in Hcache;
      destruct (cache_data w !! (query, params)) as [[stamp df0]|];
      try destruct (within_ttl 60 now stamp); simpl; auto;
      right; exists df; rewrite Hcache; auto. }
  split; [exact Hstep|].
  intros key Hkey. destruct Hstep as [->|(df & _ & ->)]; [reflexivity|].
  apply lookup_insert_ne. congruence.
Qed.

(** X4. Failures are not cached: when [read_sql] raises, the cache is
    left as it was and a connection had been attempted; the same call
    made again at that time or later attempts a connection again. *)
Theorem read_sql_error_not_cached (now now2 : Q) (query : string) (params : Params)
    (w w' : World Store) (e : Exn) :
  read_sql globals pg_query now query params w = (Raised e, w') ->
  (now <= now2)%Q ->
  cache_data w' = cache_data w
  /\ connect_calls w' = S (connect_calls w)
  /\ connect_calls (snd (read_sql globals pg_query now2 query params w'))
     = S (connect_calls w').
Proof.
  intros Hcall Hlater.
  pose proof (read_sql_body_frame query params w) as Hbody. cbv zeta in Hbody.
  destruct Hbody as (_ & _ & Hcache & Hn & _).
  pose proof (read_sql_body_frame query params w') as Hbody'. cbv zeta in Hbody'.
  destruct Hbody' as (_ & _ & _ & Hn' & _).
  unfold read_sql, st_cache_data in Hcall.
  assert (Hmiss : cache_data w' = cache_data w
                  /\ connect_calls w' = S (connect_calls w)
                  /\ (cache_data w !! (query, params) = None
                      \/ exists stamp df,
                           cache_data w !! (query, params) = Some (stamp, df)
                           /\ (stamp + 60 <= now)%Q)).
  { destruct (read_sql_body globals pg_query query params w) as [[df|e0] w1];
      simpl in Hcache, Hn;
      destruct (cache_data w !! (query, params)) as [[stamp df0]|] eqn:Hentry;
      try (unfold within_ttl in Hcall;
           destruct (Qlt_le_dec now (stamp + 60)) as [Hlt|Hle]);
      try discriminate; injection Hcall as _ <-; repeat split; auto.
    right. exists stamp, df0. auto. }
  destruct Hmiss as (Hc & Hk & Hentry).
  split; [exact Hc|]. split; [exact Hk|].
  unfold read_sql, st_cache_data. rewrite Hc.
  destruct (read_sql_body globals pg_query query params w') as [[df|e0] w1];
    simpl in Hn';
    destruct Hentry as [->|(stamp & df0 & -> & Hold)]; simpl; auto;
    unfold within_ttl;
    destruct (Qlt_le_dec now2 (stamp + 60)) as [Hlt|Hle]; simpl; auto;
    exfalso; lra.
Qed.

(** X5. Every [execute_sql] call attempts exactly one connection,
    whatever it is given; with an empty batch it sends nothing and leaves
    the store as it was, and still returns normally when the connection
    succeeds and raises when it does not. *)
Theorem execute_sql_one_connection (query : string) (params : Params)
    (many : option (list (list Value))) (w : World Store) :
  connect_calls (snd (execute_sql globals pg_execute query params many w))
    = S (connect_calls w)
  /\ execute_sql globals pg_execute query params (Some []) w
     = (if accepts w (get_conn_args globals) then Returned tt
        else Raised OperationalError,
        attempted w)
  /\ committed (attempted w) = committed w
  /\ wire (attempted w) = wire w.
Proof.
  rewrite !execute_sql_run. cbv zeta. simpl.
  split.
  - destruct (accepts w (get_conn_args globals)); [|reflexivity].
    destruct (pg_batch pg_execute query (statements_of params many) (committed w));
      reflexivity.
  - split; [|split; reflexivity].
    destruct (accepts w (get_conn_args globals)); [|reflexivity].
    f_equal. apply world_eq; simpl; auto. apply app_nil_r.
Qed.

Lemma pg_partial_all (query : string) (batch : list Params) :
  forall s s', pg_batch pg_execute query batch s = inr s' ->
               pg_partial pg_execute query batch s = s'.
Proof.
  induction batch as [|p rest IH]; intros s s' E; simpl in *.
  - congruence.
  - destruct (pg_execute query p s) as [e|s1]; [discriminate|]. apply IH. exact E.
Qed.

(** One call per tuple: the outcome is that of the batch, and what is
    committed is what the server accepted before the first rejection. *)
Lemma execute_each_run (query : string) (batch : list Params) :
  forall w : World Store,
    accepts w (get_conn_args globals) = true ->
    fst (execute_each globals pg_execute query batch w)
      = batch_outcome (pg_batch pg_execute query batch (committed w))
    /\ committed (snd (execute_each globals pg_execute query batch w))
       = pg_partial pg_execute query batch (committed w).
Proof.
  induction batch as [|p rest IH]; intros w Hup; simpl.
  - split; reflexivity.
  - unfold bind. rewrite execute_sql_run. cbv zeta. rewrite Hup. simpl.
    destruct (pg_execute query p (committed w)) as [e|s1] eqn:E; simpl.
    + split; reflexivity.
    + apply IH. simpl. exact Hup.
Qed.

(** X6. A batch against one call per tuple. While the server is
    reachable, [execute_sql] with [many] ends as the calls made one by one
    do (returning, or raising the first rejection), and when every tuple is
    accepted both commit the same state. When a tuple is rejected the two
    differ: the batch commits nothing, the separate calls have committed
    every tuple before the rejected one. *)
Theorem execute_sql_batch_or_each (query : string) (params : Params)
    (seq : list (list Value)) (w : World Store) :
  accepts w (get_conn_args globals) = true ->
  let batch := execute_sql globals pg_execute query params (Some seq) w in
  let each := execute_each globals pg_execute query (map Some seq) w in
  fst each = fst batch
  /\ committed (snd each) = pg_partial pg_execute query (map Some seq) (committed w)
  /\ (forall s', pg_batch pg_execute query (map Some seq) (committed w) = inr s' ->
        committed (snd batch) = s' /\ committed (snd each) = s')
  /\ (forall e, pg_batch pg_execute query (map Some seq) (committed w) = inl e ->
        committed (snd batch) = committed w).
Proof.
  intros Hup. cbv zeta.
  destruct (execute_each_run query (map Some seq) w Hup) as [Hfst Hcommitted].
  rewrite Hfst, Hcommitted.
  rewrite execute_sql_run. cbv zeta. rewrite Hup. simpl statements_of.
  destruct (pg_batch pg_execute query (map Some seq) (committed w)) as [e|s'] eqn:E;
    simpl.
  - repeat split; try reflexivity; intros; congruence.
  - rewrite (pg_partial_all _ _ _ _ E).
    repeat split; try reflexivity; intros; congruence.
Qed.

(** What a successful run of reads leaves in the cache. *)
Lemma read_sql_fills (now : Q) (query : string) (params : Params)
    (w w1 : World Store) (df : DataFrame) :
  fetched_since now w ->
  read_sql globals pg_query now query params w = (Returned df, w1) ->
  fetched_since now w1
  /\ (exists stamp, cache_data w1 !! (query, params) = Some (stamp, df)
                    /\ (now <= stamp)%Q)
  /\ (forall key entry, cache_data w !! key = Some entry ->
                        cache_data w1 !! key = Some entry).
Proof.
  intros Hsince Hcall.
  pose proof (read_sql_body_frame query params w) as Hbody. cbv zeta in Hbody.
  destruct Hbody as (_ & _ & Hcache & _).
  unfold read_sql, st_cache_data in Hcall.
  destruct (cache_data w !! (query, params)) as [[stamp df0]|] eqn:Hentry.
  - assert (Hlive : within_ttl 60 now stamp = true).
    { unfold within_ttl. destruct (Qlt_le_dec now (stamp + 60)) as [Hlt|Hle];
        [reflexivity|]. pose proof (Hsince _ _ _ Hentry). exfalso. lra. }
    rewrite Hlive in Hcall. injection Hcall as <- <-.
    split; [exact Hsince|]. split; [|auto].
    exists stamp. split; [exact Hentry|]. exact (Hsince _ _ _ Hentry).
  - destruct (read_sql_body globals pg_query query params w) as [[df'|e] w2];
      [|discriminate].
    simpl in Hcache. injection Hcall as <- <-.
    unfold fetched_since. cbn [cache_data set_cache_data]. rewrite Hcache.
    split; [|split].
    + intros key stamp df0 Hkey.
      destruct (decide (key = (query, params))) as [->|Hne].
      * rewrite lookup_insert_eq in Hkey. injection Hkey as <- <-. lra.
      * rewrite lookup_insert_ne in Hkey by congruence. exact (Hsince _ _ _ Hkey).
    + exists now. split; [apply lookup_insert_eq|lra].
    + intros key entry Hkey. rewrite lookup_insert_ne; [exact Hkey|].
      intros <-. congruence.
Qed.

Lemma run_reads_fills (now : Q) (calls : list (string * Params)) :
  forall (w w1 : World Store) (dfs : list DataFrame),
    fetched_since now w ->
    run_reads globals pg_query now calls w = (Returned dfs, w1) ->
    fetched_since now w1
    /\ Forall2 (fun call df => exists stamp,
                  cache_data w1 !! call = Some (stamp, df) /\ (now <= stamp)%Q)
         calls dfs
    /\ (forall key entry, cache_data w !! key = Some entry ->
                          cache_data w1 !! key = Some entry).
Proof.
  induction calls as [|[query params] rest IH]; intros w w1 dfs Hsince Hrun;
    simpl in Hrun.
  - unfold ret in Hrun. injection Hrun as <- <-.
    split; [exact Hsince|]. split; [constructor|auto].
  - unfold bind in Hrun.
    destruct (read_sql globals pg_query now query params w) as [[df|e] w2] eqn:Hread;
      [|discriminate].
    destruct (run_reads globals pg_query now rest w2) as [[dfs'|e] w3] eqn:Hrest;
      [|discriminate].
    unfold ret in Hrun. injection Hrun as <- <-.
    destruct (read_sql_fills now query params w w2 df Hsince Hread)
      as (Hsince2 & (stamp & Hentry & Hstamp) & Hkeep2).
    destruct (IH w2 w3 dfs' Hsince2 Hrest) as (Hsince3 & Hall & Hkeep3).
    split; [exact Hsince3|]. split; [|auto].
    constructor; [|exact Hall].
    exists stamp. split; [|exact Hstamp]. apply Hkeep3. exact Hentry.
Qed.

Lemma run_reads_hits (now : Q) (calls : list (string * Params)) :
  forall (w : World Store) (dfs : list DataFrame),
    Forall2 (fun call df => exists stamp,
               cache_data w !! call = Some (stamp, df) /\ (now < stamp + 60)%Q)
      calls dfs ->
    run_reads globals pg_query now calls w = (Returned dfs, w).
Proof.
  induction calls as [|[query params] rest IH]; intros w dfs Hall;
    inversion Hall as [|call df calls' dfs' (stamp & Hentry & Hlive) Hrest]; subst;
    simpl.
  - reflexivity.
  - unfold bind. rewrite (read_sql_hit now query params w stamp df Hentry Hlive).
    rewrite (IH w dfs' Hrest). reflexivity.
Qed.

(** X7. A rerun of the script's reads within the TTL costs no round
    trip. When a run of reads has returned and no cache entry was older
    than that run (the cache of a fresh process is empty), running the
    same reads again less than 60 seconds after the first run returns the
    same tables and changes nothing: no connection is attempted and no
    statement is sent. *)
Theorem run_reads_again_cached (now now2 : Q) (calls : list (string * Params))
    (w w1 : World Store) (dfs : list DataFrame) :
  fetched_since now w ->
  run_reads globals pg_query now calls w = (Returned dfs, w1) ->
  (now2 < now + 60)%Q ->
  run_reads globals pg_query now2 calls w1 = (Returned dfs, w1).
Proof.
  intros Hsince Hrun Hsoon.
  destruct (run_reads_fills now calls w w1 dfs Hsince Hrun) as (_ & Hall & _).
  apply run_reads_hits.
  eapply Forall2_impl; [exact Hall|].
  intros call df (stamp & Hentry & Hstamp). exists stamp. split; [exact Hentry|]. lra.
Qed.

End GatewayFrames.

(** With the server down the city query raises; asked again five seconds
    later it tries to connect again. *)
Lemma read_sql_error_not_cached_witness :
  let first := read_sql remote_config crud_query 0 sql_insight_3 springfield_params
                 offline_world in
  fst first = Raised OperationalError
  /\ connect_calls (snd (read_sql remote_config crud_query 5 sql_insight_3
                           springfield_params (snd first)))
     = S (connect_calls (snd first)).
Proof.
  cbv zeta.
  set (first := read_sql remote_config crud_query 0 sql_insight_3 springfield_params
                  offline_world).
  assert (Hfst : fst first = Raised OperationalError) by (vm_compute; reflexivity).
  assert (Hcall : first = (Raised OperationalError, snd first)).
  { rewrite <- Hfst. destruct first; reflexivity. }
  split; [exact Hfst|].
  assert (Hlater : (0 <= 5)%Q) by (vm_compute; discriminate).
  exact (proj2 (proj2 (read_sql_error_not_cached remote_config crud_query 0 5
                         sql_insight_3 springfield_params offline_world (snd first)
                         OperationalError Hcall Hlater))).
Defined.

(** On [half_bad_batch] the batch commits nothing, while the two separate
    calls leave the first update committed. *)
Lemma execute_sql_batch_or_each_witness :
  committed (snd (execute_sql remote_config crud_execute sql_update_quantity None
                    (Some half_bad_batch) example_world))
    = example_store
  /\ committed (snd (execute_each remote_config crud_execute sql_update_quantity
                       (map Some half_bad_batch) example_world))
     = update_quantity 7 3 example_store.
Proof.
  destruct (execute_sql_batch_or_each remote_config crud_execute sql_update_quantity
              None half_bad_batch example_world eq_refl)
    as (_ & Heach & _ & Hbad).
  split.
  - apply (Hbad (DatabaseError "08P01")). vm_compute. reflexivity.
  - rewrite Heach. vm_compute. reflexivity.
Defined.

(** A first run of [two_reads] on the fresh example world fills the
    cache; a rerun 59 seconds later returns the same two tables and leaves
    the world as it was. *)
Lemma run_reads_again_cached_witness :
  let first := run_reads remote_config crud_query 0 two_reads example_world in
  exists dfs,
    fst first = Returned dfs
    /\ run_reads remote_config crud_query 59 two_reads (snd first)
       = (Returned dfs, snd first).
Proof.
  cbv zeta.
  set (first := run_reads remote_config crud_query 0 two_reads example_world).
  destruct (fst first) as [dfs|e] eqn:Hfst; [|vm_compute in Hfst; discriminate].
  exists dfs. split; [reflexivity|].
  assert (Hcall : first = (Returned dfs, snd first)).
  { rewrite <- Hfst. destruct first; reflexivity. }
  assert (Hsince : fetched_since 0 example_world).
  { intros key stamp df Hentry. simpl in Hentry. rewrite lookup_empty in Hentry.
    discriminate. }
  assert (Hsoon : (59 < 0 + 60)%Q) by (vm_compute; reflexivity).
  exact (run_reads_again_cached remote_config crud_query 0 59 two_reads
           example_world (snd first) dfs Hsince Hcall Hsoon).
Defined.

(** ** [str.strip] and the city filter *)

Lemma append_nil (s : string) : EmptyString +:+ s = s.
Proof. reflexivity. Qed.

Lemma append_cons (c : ascii) (s t : string) :
  String c s +:+ t = String c (s +:+ t).
Proof. reflexivity. Qed.

Ltac unfold_append :=
  repeat first [ rewrite append_nil in * | rewrite append_cons in * ].

Lemma lstrip_split (s : string) :
  exists pre, s = pre +:+ lstrip s /\ all_space pre = true.
Proof.
  induction s as [|c rest IH]; simpl.
  - exists EmptyString. split; reflexivity.
  - destruct (py_isspace c) eqn:E.
    + destruct IH as (pre & Hs & Hpre). exists (String c pre). split.
      * rewrite append_cons. f_equal. exact Hs.
      * simpl. rewrite E. exact Hpre.
    + exists EmptyString. split; reflexivity.
Qed.

Lemma lstrip_head (s : string) (c : ascii) (rest : string) :
  lstrip s = String c rest -> py_isspace c = false.
Proof.
  induction s as [|a s IH]; simpl.
  - discriminate.
  - destruct (py_isspace a) eqn:E; [exact IH|].
    intros H. injection H as <- _. exact E.
Qed.

Lemma lstrip_fixed (c : ascii) (rest : string) :
  py_isspace c = false -> lstrip (String c rest) = String c rest.
Proof.
  intros E. simpl. rewrite E. reflexivity.
Qed.

Lemma rstrip_split (s : string) :
  exists post, s = rstrip s +:+ post /\ all_space post = true.
Proof.
  induction s as [|c rest IH]; simpl.
  - exists EmptyString. split; reflexivity.
  - destruct IH as (post & Hs & Hpost).
    destruct (rstrip rest) as [|c' kept] eqn:Hk.
    + rewrite append_nil in Hs. subst post.
      destruct (py_isspace c) eqn:E.
      * exists (String c rest). split; [reflexivity|]. simpl. rewrite E. exact Hpost.
      * exists rest. split; [reflexivity|exact Hpost].
    + exists post. split; [|exact Hpost]. rewrite append_cons. f_equal. exact Hs.
Qed.

Lemma rstrip_head (c : ascii) (rest : string) :
  py_isspace c = false -> exists kept, rstrip (String c rest) = String c kept.
Proof.
  intros E. simpl. destruct (rstrip rest) as [|c' kept].
  - rewrite E. eexists. reflexivity.
  - eexists. reflexivity.
Qed.

Lemma rstrip_idem (s : string) : rstrip (rstrip s) = rstrip s.
Proof.
  induction s as [|c rest IH]; simpl.
  - reflexivity.
  - destruct (rstrip rest) as [|c' kept] eqn:Hk.
    + destruct (py_isspace c) eqn:E; simpl; [reflexivity|]. rewrite E. reflexivity.
    + simpl. simpl in IH. rewrite IH. reflexivity.
Qed.

Lemma append_last (pre : string) (c a : ascii) :
  pre +:+ String c EmptyString = String a EmptyString -> pre = EmptyString /\ a = c.
Proof.
  destruct pre as [|p pre]; intros H; unfold_append.
  - injection H as <-. split; reflexivity.
  - injection H as _ H. destruct pre; unfold_append; discriminate.
Qed.

Lemma rstrip_last (s : string) :
  forall pre c, rstrip s = pre +:+ String c EmptyString -> py_isspace c = false.
Proof.
  induction s as [|a rest IH]; intros pre c; simpl.
  - intros H. destruct pre; unfold_append; discriminate.
  - destruct (rstrip rest) as [|c' kept] eqn:Hk.
    + destruct (py_isspace a) eqn:E; intros H.
      * destruct pre; unfold_append; discriminate.
      * symmetry in H. apply append_last in H. destruct H as [_ ->]. exact E.
    + intros H. destruct pre as [|p pre]; unfold_append.
      * discriminate.
      * injection H as _ H. exact (IH pre c H).
Qed.

Lemma strip_idem (s : string) : strip (strip s) = strip s.
Proof.
  unfold strip.
  destruct (lstrip s) as [|c rest] eqn:Hl.
  - reflexivity.
  - pose proof (lstrip_head s c rest Hl) as E.
    destruct (rstrip_head c rest E) as [kept Hk]. rewrite Hk.
    rewrite (lstrip_fixed c kept E). rewrite <- Hk. apply rstrip_idem.
Qed.

(** X8. [strip] removes whitespace at the two ends and nothing else: the
    string is the stripped string between a run of whitespace before and
    a run of whitespace after; the stripped string neither begins nor ends
    with a whitespace character; stripping again changes nothing. So the
    city bound for a typed filter is [None] exactly for the empty input,
    and typing a bound (non-empty) city binds that same city. *)
Theorem strip_ends (s : string) :
  (exists pre post, s = pre +:+ strip s +:+ post
                    /\ all_space pre = true /\ all_space post = true)
  /\ (forall c rest, strip s = String c rest -> py_isspace c = false)
  /\ (forall pre c, strip s = pre +:+ String c EmptyString -> py_isspace c = false)
  /\ strip (strip s) = strip s
  /\ (provider_city s = None <-> s = EmptyString)
  /\ (forall city, provider_city s = Some city -> city <> EmptyString ->
                   provider_city city = Some city).
Proof.
  split; [|split; [|split; [|split; [|split]]]].
  - destruct (lstrip_split s) as (pre & Hs & Hpre).
    destruct (rstrip_split (lstrip s)) as (post & Hl & Hpost).
    exists pre, post. split; [|split; assumption].
    unfold strip. rewrite <- Hl. exact Hs.
  - intros c rest H. unfold strip in H.
    destruct (lstrip s) as [|a l] eqn:Hl; [discriminate|].
    pose proof (lstrip_head s a l Hl) as E.
    destruct (rstrip_head a l E) as [kept Hk]. rewrite Hk in H.
    injection H as <- _. exact E.
  - intros pre c H. exact (rstrip_last (lstrip s) pre c H).
  - apply strip_idem.
  - destruct s; simpl; split; intros H; try reflexivity; discriminate.
  - intros city H Hne. destruct s as [|a s']; [discriminate|].
    simpl in H. injection H as <-.
    unfold provider_city.
    destruct (strip (String a s')) as [|c rest] eqn:Hst; [contradiction|].
    rewrite <- Hst. rewrite strip_idem. reflexivity.
Qed.

(** X9. A provider whose stored city is NULL, or has whitespace at
    either end, is never returned for a typed filter: whatever non-empty
    text is typed, the stripped text bound to the query differs from such
    a city. *)
Theorem padded_city_never_matched (table : list ProviderRow) (r : ProviderRow)
    (input : string) :
  input <> EmptyString ->
  (p_City r = None \/ exists c, p_City r = Some c /\ strip c <> c) ->
  ~ In r (insight_3_rows (provider_city input) table).
Proof.
  intros Hinput Hcity Hin.
  destruct input as [|a rest]; [contradiction|].
  unfold provider_city in Hin. unfold insight_3_rows in Hin.
  apply filter_In in Hin. destruct Hin as [_ Hwhere].
  apply insight_3_where_some in Hwhere.
  destruct Hcity as [Hnull|(c & Hc & Hpad)].
  - congruence.
  - apply Hpad. rewrite Hc in Hwhere. injection Hwhere as ->. apply strip_idem.
Qed.

(** The provider of [two_providers] whose city is two spaces is not found
    by typing two spaces. *)
Lemma padded_city_never_matched_witness :
  ~ In (mkProviderRow (Some 2) (VStr "Corner Shop") (VStr "Grocery Store")
          (VStr "2 Side St") (Some "  ") (VStr "555-0101"))
       (insight_3_rows (provider_city "  ") two_providers).
Proof.
  apply padded_city_never_matched.
  - discriminate.
  - right. exists "  ". split; [reflexivity|]. vm_compute. discriminate.
Defined.

(** ** More on the nearest-expiry query *)

Lemma date_leb_antisym (a b : Date) :
  date_leb a b = true -> date_leb b a = true -> a = b.
Proof.
  rewrite !date_leb_spec, !date_ltb_spec. intros H1 H2.
  destruct a as [ya ma da], b as [yb mb db]. simpl in *.
  assert (ya = yb) by lia. assert (ma = mb) by lia. assert (da = db) by lia.
  subst. reflexivity.
Qed.

Section Insight15More.

Variable date_in : string -> option Date.

Lemma scan_expiry_bad (table : list FoodRow) (r : FoodRow) (text : string) :
  In r table -> fl_Expiry_Date r = Some text -> date_in text = None ->
  exists e, scan_expiry date_in table = inl e.
Proof.
  induction table as [|r0 table IH]; intros Hin Htext Hbad; simpl.
  - destruct Hin.
  - destruct (cast_date date_in (fl_Expiry_Date r0)) as [e|d] eqn:Hcast.
    + exists e. reflexivity.
    + destruct Hin as [->|Hin].
      * unfold cast_date in Hcast. rewrite Htext, Hbad in Hcast. discriminate.
      * destruct (IH Hin Htext Hbad) as [e He]. rewrite He. exists e. reflexivity.
Qed.

Lemma scan_expiry_valid (table : list FoodRow) (scanned : list (option Date * FoodRow)) :
  scan_expiry date_in table = inr scanned -> expiry_texts_valid date_in table.
Proof.
  intros Hscan r text Hin Htext Hbad.
  destruct (scan_expiry_bad table r text Hin Htext Hbad) as [e He]. congruence.
Qed.

(** X10. One malformed expiry text fails the whole nearest-expiry query:
    if any listing of the table, expired or not, has an expiry text the
    server does not read as a date, insight 15 raises instead of returning
    the nearest valid listing. *)
Theorem insight_15_bad_date (today : Date) (table : list FoodRow) (r : FoodRow)
    (text : string) :
  In r table -> fl_Expiry_Date r = Some text -> date_in text = None ->
  exists e, insight_15_rows date_in today table = inl e
            /\ insight_15 date_in today table = inl e.
Proof.
  intros Hin Htext Hbad.
  destruct (scan_expiry_bad table r text Hin Htext Hbad) as [e He].
  exists e. unfold insight_15, insight_15_rows. rewrite He. split; reflexivity.
Qed.

(** X11. The expiry date returned by insight 15 does not depend on the
    order in which the table stores its rows: on a table with the same rows
    in another order the query returns too, and returns a row with the same
    expiry date (or no row, when the first returned none). *)
Theorem insight_15_any_order (today : Date) (table table' : list FoodRow)
    (picked : list (Date * FoodRow)) :
  Permutation table table' ->
  insight_15_rows date_in today table = inr picked ->
  exists picked',
    insight_15_rows date_in today table' = inr picked'
    /\ map fst picked' = map fst picked.
Proof.
  intros Hperm Hrun.
  assert (Hvalid : expiry_texts_valid date_in table).
  { unfold insight_15_rows in Hrun.
    destruct (scan_expiry date_in table) as [e|scanned] eqn:Hscan; [discriminate|].
    exact (scan_expiry_valid table scanned Hscan). }
  assert (Hvalid' : expiry_texts_valid date_in table').
  { intros r text Hin. apply Hvalid.
    apply (Permutation_in r (Permutation_sym Hperm) Hin). }
  destruct (scan_expiry_returns date_in table' Hvalid') as [scanned' Hscan'].
  set (picked' := firstn 1 (order_by_date (future_rows today scanned'))).
  assert (Hrun' : insight_15_rows date_in today table' = inr picked').
  { unfold insight_15_rows. rewrite Hscan'. reflexivity. }
  exists picked'. split; [exact Hrun'|].
  destruct (insight_15_rows_spec date_in today table picked Hrun)
    as (Hlen & Hmin & Hsome & _).
  destruct (insight_15_rows_spec date_in today table' picked' Hrun')
    as (Hlen' & Hmin' & Hsome' & _).
  clearbody picked'.
  destruct picked as [|[d r] rest]; destruct picked' as [|[d' r'] rest'].
  - reflexivity.
  - exfalso.
    destruct (Hmin' d' r' (or_introl eq_refl)) as (Hin' & Hcast' & Hlt' & _).
    assert (Hone : length (@nil (Date * FoodRow)) = 1%nat).
    { apply Hsome. exists r', d'. split; [|split; assumption].
      apply (Permutation_in r' (Permutation_sym Hperm) Hin'). }
    discriminate.
  - exfalso.
    destruct (Hmin d r (or_introl eq_refl)) as (Hin & Hcast & Hlt & _).
    assert (Hone : length (@nil (Date * FoodRow)) = 1%nat).
    { apply Hsome'. exists r, d. split; [|split; assumption].
      apply (Permutation_in r Hperm Hin). }
    discriminate.
  - destruct rest; [|simpl in Hlen; lia].
    destruct rest'; [|simpl in Hlen'; lia].
    destruct (Hmin d r (or_introl eq_refl)) as (Hin & Hcast & Hlt & Hleast).
    destruct (Hmin' d' r' (or_introl eq_refl)) as (Hin' & Hcast' & Hlt' & Hleast').
    simpl. f_equal.
    apply date_leb_antisym.
    + apply (Hleast' r d); auto. apply (Permutation_in r Hperm Hin).
    + apply (Hleast r' d'); auto.
      apply (Permutation_in r' (Permutation_sym Hperm) Hin').
Qed.

End Insight15More.

(** With a listing whose expiry text is "tomorrow" in the table, the
    query fails although its other listings are those of the example. *)
Lemma insight_15_bad_date_witness :
  exists e, insight_15 iso_date june_first listings_with_bad_date = inl e.
Proof.
  destruct (insight_15_bad_date iso_date june_first listings_with_bad_date
              (example_listing 4 "Milk" "tomorrow") "tomorrow")
    as (e & _ & He).
  - vm_compute. auto.
  - reflexivity.
  - vm_compute. reflexivity.
  - exists e. exact He.
Defined.

(** The example listings stored in reverse order give the same date. *)
Lemma insight_15_any_order_witness :
  exists picked',
    insight_15_rows iso_date june_first (rev example_listings) = inr picked'
    /\ map fst picked' = [mkDate 2025 11 15].
Proof.
  assert (Hrun : insight_15_rows iso_date june_first example_listings
                 = inr [(mkDate 2025 11 15, example_listing 3 "Soup" "2025-11-15")])
    by (vm_compute; reflexivity).
  exact (insight_15_any_order iso_date june_first example_listings
           (rev example_listings) _ (Permutation_rev example_listings) Hrun).
Defined.

(** ** The by-identifier writes *)

Lemma sql_where_eq_int (x : option Z) (id : Z) :
  sql_where (sql_eq_int x (Some id)) = true <-> x = Some id.
Proof.
  destruct x as [a|]; simpl.
  - destruct (a =? id) eqn:E.
    + apply Z.eqb_eq in E. subst. split; reflexivity.
    + apply Z.eqb_neq in E. split; [discriminate|]. intros H. congruence.
  - split; discriminate.
Qed.

Lemma sql_where_neq_int (x : option Z) (id : Z) :
  sql_where (sql_eq_int x (Some id)) = false <-> x <> Some id.
Proof.
  rewrite <- sql_where_eq_int.
  destruct (sql_where (sql_eq_int x (Some id))); split; congruence.
Qed.

(** X12. What "Update Quantity" does to the listings: the rows keep
    their order and identifiers, every row with the given identifier ends
    with the new quantity, every other row is kept as it is, and the other
    tables are untouched. Of two updates of the same listing the later one
    stands, and an update of an identifier no row has changes nothing. *)
Theorem update_quantity_effect (q food_id : Z) (s : FoodStore) :
  let s' := update_quantity q food_id s in
  map fl_Food_ID (food_listings s') = map fl_Food_ID (food_listings s)
  /\ (forall r', In r' (food_listings s') -> fl_Food_ID r' = Some food_id ->
                 fl_Quantity r' = Some q)
  /\ (forall r, In r (food_listings s) -> fl_Food_ID r <> Some food_id ->
                In r (food_listings s'))
  /\ (providers s' = providers s /\ receivers s' = receivers s /\ claims s' = claims s)
  /\ (forall q', update_quantity q' food_id s' = update_quantity q' food_id s)
  /\ ((forall r, In r (food_listings s) -> fl_Food_ID r <> Some food_id) -> s' = s).
Proof.
  cbv zeta. unfold update_quantity. simpl.
  split; [|split; [|split; [|split; [|split]]]].
  - rewrite map_map. apply map_ext. intros r.
    destruct (sql_where (sql_eq_int (fl_Food_ID r) (Some food_id))); reflexivity.
  - intros r' Hin Hid. apply in_map_iff in Hin. destruct Hin as (r & <- & _).
    destruct (sql_where (sql_eq_int (fl_Food_ID r) (Some food_id))) eqn:E.
    + reflexivity.
    + apply sql_where_neq_int in E. contradiction.
  - intros r Hin Hid. apply in_map_iff. exists r. split; [|exact Hin].
    apply sql_where_neq_int in Hid. rewrite Hid. reflexivity.
  - auto.
  - intros q'. f_equal. rewrite map_map. apply map_ext. intros r.
    destruct (sql_where (sql_eq_int (fl_Food_ID r) (Some food_id))) eqn:E.
    + simpl. rewrite E. reflexivity.
    + rewrite E. reflexivity.
  - intros Hnone. destruct s as [ps rs fs cs]. simpl in *. f_equal.
    rewrite <- (map_id fs) at 2. apply map_ext_in. intros r Hin.
    pose proof (Hnone r Hin) as Hid. apply sql_where_neq_int in Hid.
    rewrite Hid. reflexivity.
Qed.

(** X13. Updates of two different listings commute: the store after the
    two writes does not depend on which was made first. *)
Theorem update_quantity_commute (q1 id1 q2 id2 : Z) (s : FoodStore) :
  id1 <> id2 ->
  update_quantity q1 id1 (update_quantity q2 id2 s)
  = update_quantity q2 id2 (update_quantity q1 id1 s).
Proof.
  intros Hne. unfold update_quantity. simpl. f_equal.
  rewrite !map_map. apply map_ext. intros r.
  destruct (sql_where (sql_eq_int (fl_Food_ID r) (Some id1))) eqn:E1;
    destruct (sql_where (sql_eq_int (fl_Food_ID r) (Some id2))) eqn:E2;
    simpl; rewrite ?E1, ?E2; try reflexivity.
  apply sql_where_eq_int in E1. apply sql_where_eq_int in E2. congruence.
Qed.

Lemma update_quantity_commute_witness :
  update_quantity 7 3 (update_quantity 4 2 example_store)
  = update_quantity 4 2 (update_quantity 7 3 example_store).
Proof.
  apply update_quantity_commute. lia.
Defined.

Lemma filter_idem {A} (f : A -> bool) (l : list A) :
  List.filter f (List.filter f l) = List.filter f l.
Proof.
  induction l as [|x l IH]; simpl; [reflexivity|].
  destruct (f x) eqn:E; simpl; rewrite ?E, IH; reflexivity.
Qed.

(** X14. What "Delete Listing" does to the listings: the rows left are
    exactly the rows whose identifier is not the given one, and deleting
    again changes nothing. An update of the deleted identifier changes
    nothing either, and a delete after an update is just the delete. *)
Theorem delete_listing_effect (food_id : Z) (s : FoodStore) :
  let s' := delete_listing food_id s in
  (forall r, In r (food_listings s') <->
             In r (food_listings s) /\ fl_Food_ID r <> Some food_id)
  /\ delete_listing food_id s' = s'
  /\ (forall q, update_quantity q food_id s' = s')
  /\ (forall q, delete_listing food_id (update_quantity q food_id s) = s').
Proof.
  cbv zeta.
  assert (Hmem : forall r, In r (food_listings (delete_listing food_id s)) <->
                           In r (food_listings s) /\ fl_Food_ID r <> Some food_id).
  { intros r. unfold delete_listing. simpl. rewrite filter_In.
    rewrite negb_true_iff, sql_where_neq_int. reflexivity. }
  split; [exact Hmem|].
  split; [|split].
  - unfold delete_listing. simpl. f_equal. apply filter_idem.
  - intros q.
    destruct (update_quantity_effect q food_id (delete_listing food_id s))
      as (_ & _ & _ & _ & _ & Hnone).
    apply Hnone. intros r Hin. apply Hmem in Hin. tauto.
  - intros q. clear Hmem. unfold delete_listing, update_quantity. simpl. f_equal.
    induction (food_listings s) as [|r l IH]; simpl; [reflexivity|].
    destruct (sql_where (sql_eq_int (fl_Food_ID r) (Some food_id))) eqn:E; simpl.
    + rewrite E. simpl. exact IH.
    + rewrite E. simpl. f_equal. exact IH.
Qed.



(** ** Writes that name a row the table no longer holds *)

Section StaleWrites.

Variable globals : Config.
Variable pg_execute : string -> Params -> FoodStore -> Exn + FoodStore.

(** The server runs the two statements on listings as SQL defines them. *)
Hypothesis pg_execute_update :
  forall q food_id s,
    pg_execute sql_update_quantity (Some [VInt q; VInt food_id]) s
    = inr (update_quantity q food_id s).
Hypothesis pg_execute_delete :
  forall food_id s,
    pg_execute sql_delete_listing (Some [VInt food_id]) s
    = inr (delete_listing food_id s).

(** X16. A write that names a listing the table does not hold succeeds
    silently. When no listing has the identifier picked (the pick list
    comes from a cached read and may be stale), "Update Quantity" and
    "Delete Listing" both return normally, as after a real change, and the
    committed store is what it was. *)
Theorem stale_pick_succeeds (ui : UiInputs) (w : World FoodStore) :
  accepts w (get_conn_args globals) = true ->
  (forall r, In r (food_listings (committed w)) ->
             fl_Food_ID r <> Some (picked_food_id ui)
             /\ fl_Food_ID r <> Some (deleted_food_id ui)) ->
  let upd := crud_statement UpdateQuantity ui in
  let del := crud_statement DeleteListing ui in
  execute_sql globals pg_execute (fst upd) (snd upd) None w
    = (Returned tt, received [upd] (attempted w))
  /\ execute_sql globals pg_execute (fst del) (snd del) None w
     = (Returned tt, received [del] (attempted w))
  /\ committed (received [upd] (attempted w)) = committed w
  /\ committed (received [del] (attempted w)) = committed w.
Proof.
  intros Hup Hnone. cbv zeta. simpl crud_statement. cbn [fst snd].
  rewrite !execute_sql_run. cbv zeta. rewrite Hup. simpl statements_of.
  cbn [pg_batch pg_received]. rewrite pg_execute_update, pg_execute_delete.
  assert (Hu : update_quantity (new_qty ui) (picked_food_id ui) (committed w)
               = committed w).
  { destruct (update_quantity_effect (new_qty ui) (picked_food_id ui) (committed w))
      as (_ & _ & _ & _ & _ & Hsame).
    apply Hsame. intros r Hin. apply (Hnone r Hin). }
  assert (Hd : delete_listing (deleted_food_id ui) (committed w) = committed w).
  { unfold delete_listing. destruct (committed w) as [ps rs fs cs] eqn:Hs.
    simpl in *. f_equal. apply forallb_filter_id. apply forallb_forall.
    intros r Hin. apply negb_true_iff, sql_where_neq_int. apply (Hnone r Hin). }
  rewrite Hu, Hd.
  split; [reflexivity|]. split; [reflexivity|]. split; reflexivity.
Qed.

End StaleWrites.

(** On the example world no listing has number 99: both writes return
    and the store stays the example store. *)
Lemma stale_pick_succeeds_witness :
  fst (execute_sql remote_config crud_execute sql_delete_listing (Some [VInt 99]) None
         example_world) = Returned tt
  /\ committed (snd (execute_sql remote_config crud_execute sql_delete_listing
                       (Some [VInt 99]) None example_world)) = example_store.
Proof.
  assert (Hupdate : forall q food_id s,
    crud_execute sql_update_quantity (Some [VInt q; VInt food_id]) s
    = inr (update_quantity q food_id s)) by (intros; reflexivity).
  assert (Hdelete : forall food_id s,
    crud_execute sql_delete_listing (Some [VInt food_id]) s
    = inr (delete_listing food_id s)) by (intros; reflexivity).
  assert (Hnone : forall r, In r (food_listings (committed example_world)) ->
             fl_Food_ID r <> Some (picked_food_id stale_ui)
             /\ fl_Food_ID r <> Some (deleted_food_id stale_ui)).
  { intros r [<-|[<-|[<-|[]]]]; split; discriminate. }
  destruct (stale_pick_succeeds remote_config crud_execute Hupdate Hdelete
              stale_ui example_world eq_refl Hnone) as (_ & Hdel & _ & _).
  simpl crud_statement in Hdel. cbn [fst snd] in Hdel.
  rewrite Hdel. split; reflexivity.
Defined.

(** ** More on the dashboard and the missing-values overview *)

Lemma series_sum_bounds (flags : list bool) :
  0 <= series_sum flags <= Z.of_nat (length flags).
Proof.
  unfold series_sum. induction flags as [|b flags IH].
  - simpl. lia.
  - cbn [fold_right length]. destruct b; lia.
Qed.

(** X17. When no claim is completed (no [Status] cell is ["Completed"],
    or the table has no [Status] column) the success rate is exactly 0.0,
    whatever the number of claims. *)
Theorem success_rate_none_completed (claims : DataFrame) :
  completed_claims claims = 0 ->
  success_rate claims = S754_zero false.
Proof.
  intros Hnone. unfold success_rate. rewrite Hnone.
  destruct (total_claims claims =? 0) eqn:E; [reflexivity|].
  apply Z.eqb_neq in E.
  assert (Hpos : 0 < total_claims claims) by (unfold total_claims, df_len in *; lia).
  destruct (total_claims claims) as [|p|p]; try lia.
  reflexivity.
Qed.

Lemma success_rate_none_completed_witness :
  success_rate open_claims = S754_zero false.
Proof.
  apply success_rate_none_completed. vm_compute. reflexivity.
Defined.

Lemma nonnull_elem (cells : list Value) (v : Value) :
  v ∈ List.filter (fun c => negb (bool_decide (c = VNone))) cells
  <-> v ∈ cells /\ v <> VNone.
Proof.
  rewrite !list_elem_of_In, filter_In, negb_true_iff, bool_decide_eq_false.
  reflexivity.
Qed.

Lemma series_nunique_size (cells : list Value) :
  series_nunique cells
  = size (list_to_set (C := gset Value)
            (List.filter (fun c => negb (bool_decide (c = VNone))) cells)).
Proof.
  unfold series_nunique.
  rewrite <- (size_list_to_set (C := gset Value) (remove_dups _))
    by apply NoDup_remove_dups.
  f_equal. apply set_eq. intros v.
  rewrite !elem_of_list_to_set, elem_of_remove_dups. reflexivity.
Qed.

Lemma series_nunique_le (cells : list Value) :
  (series_nunique cells <= length cells)%nat.
Proof.
  unfold series_nunique.
  set (kept := List.filter (fun c => negb (bool_decide (c = VNone))) cells).
  assert (H1 : (length (remove_dups kept) <= length kept)%nat).
  { apply submseteq_length, NoDup_submseteq; [apply NoDup_remove_dups|].
    intros v. rewrite elem_of_remove_dups. auto. }
  assert (H2 : (length kept <= length cells)%nat) by apply filter_length_le.
  lia.
Qed.

(** X18. The provider and receiver counts of the dashboard count each
    identifier once: the count is the size of the set of non-missing
    values of the column, so it lies between 0 and the number of rows, is
    0 when the column is absent, and is the same for any table with the
    same rows, in whatever order and however often repeated. *)
Theorem df_nunique_distinct (df : DataFrame) (label : string) :
  0 <= df_nunique df label <= df_len df
  /\ (df_column df label = None -> df_nunique df label = 0)
  /\ (forall cells, df_column df label = Some cells ->
        df_nunique df label
        = Z.of_nat (size (list_to_set (C := gset Value)
                            (List.filter (fun c => negb (bool_decide (c = VNone)))
                               cells))))
  /\ (forall rows', (forall row, In row rows' <-> In row (rows df)) ->
        df_nunique (mkDataFrame (columns df) rows') label = df_nunique df label)
  /\ total_providers df = df_nunique df "Provider_ID"
  /\ total_receivers df = df_nunique df "Receiver_ID".
Proof.
  split; [|split; [|split; [|split; [|split; reflexivity]]]].
  - unfold df_nunique. destruct (df_column df label) as [cells|] eqn:E.
    + pose proof (series_nunique_le cells) as Hle.
      pose proof (df_column_length df label cells E) as Hlen.
      unfold df_len. lia.
    + unfold df_len. lia.
  - unfold df_nunique. intros ->. reflexivity.
  - unfold df_nunique. intros cells ->. rewrite series_nunique_size. reflexivity.
  - intros rows' Hrows. unfold df_nunique, df_column. simpl.
    destruct (index_of label (columns df)) as [i|]; [|reflexivity].
    rewrite !series_nunique_size. do 2 f_equal.
    apply set_eq. intros v. rewrite !elem_of_list_to_set, !nonnull_elem.
    rewrite !list_elem_of_In, !in_map_iff.
    split; intros [(row & Hv & Hin) Hnn]; (split; [|exact Hnn]);
      exists row; (split; [exact Hv|]); apply Hrows; exact Hin.
Qed.

Lemma insert_desc_perm (x : string * Z) (l : list (string * Z)) :
  Permutation (insert_desc x l) (x :: l).
Proof.
  induction l as [|y l IH]; simpl.
  - reflexivity.
  - destruct (snd y <=? snd x).
    + reflexivity.
    + rewrite IH. apply perm_swap.
Qed.

Lemma sort_desc_perm (l : list (string * Z)) : Permutation (sort_desc l) l.
Proof.
  induction l as [|x l IH]; simpl.
  - reflexivity.
  - rewrite insert_desc_perm. constructor. exact IH.
Qed.

Lemma insert_desc_sorted (x : string * Z) (l : list (string * Z)) :
  StronglySorted (fun a b => snd b <= snd a) l ->
  StronglySorted (fun a b => snd b <= snd a) (insert_desc x l).
Proof.
  induction l as [|y l IH]; intros Hsorted; simpl.
  - repeat constructor.
  - inversion Hsorted as [|y' l' Hl Hy]; subst.
    destruct (snd y <=? snd x) eqn:E.
    + apply Z.leb_le in E. constructor; [exact Hsorted|].
      constructor; [exact E|].
      apply List.Forall_forall. intros b Hb.
      rewrite List.Forall_forall in Hy. specialize (Hy b Hb). simpl in Hy. lia.
    + apply Z.leb_gt in E. constructor; [apply IH; exact Hl|].
      apply List.Forall_forall. intros b Hb.
      apply (Permutation_in b (insert_desc_perm x l)) in Hb.
      destruct Hb as [<-|Hb]; [lia|].
      rewrite List.Forall_forall in Hy. apply Hy. exact Hb.
Qed.

Lemma sort_desc_sorted (l : list (string * Z)) :
  StronglySorted (fun a b => snd b <= snd a) (sort_desc l).
Proof.
  induction l as [|x l IH]; simpl.
  - constructor.
  - apply insert_desc_sorted. exact IH.
Qed.

Lemma isna_sum_from_labels (labels : list string) (table : list (list Value)) :
  forall i, map fst (isna_sum_from i labels table) = labels.
Proof.
  induction labels as [|l labels IH]; intros i; simpl.
  - reflexivity.
  - rewrite IH. reflexivity.
Qed.

Lemma isna_sum_from_counts (labels : list string) (table : list (list Value)) :
  forall i l n, In (l, n) (isna_sum_from i labels table) ->
    exists k, nth_error labels k = Some l /\ n = count_missing (i + k) table.
Proof.
  induction labels as [|l0 labels IH]; intros i l n Hin; simpl in Hin.
  - destruct Hin.
  - destruct Hin as [Hin|Hin].
    + injection Hin as <- <-. exists 0%nat. split; [reflexivity|].
      rewrite Nat.add_0_r. reflexivity.
    + destruct (IH (S i) l n Hin) as (k & Hk & Hn).
      exists (S k). split; [exact Hk|]. rewrite Nat.add_succ_r. exact Hn.
Qed.

Lemma count_missing_bounds (i : nat) (table : list (list Value)) :
  0 <= count_missing i table <= Z.of_nat (length table).
Proof.
  unfold count_missing.
  pose proof (series_sum_bounds
                (map (fun row => bool_decide (nth i row VNone = VNone)) table)) as H.
  rewrite length_map in H. exact H.
Qed.

Lemma nulls_pct_zero (len : Z) : 0 < len -> nulls_pct 0 len = S754_zero false.
Proof.
  intros Hlen. destruct len as [|p|p]; try lia. reflexivity.
Qed.

Lemma df_empty_false_len (df : DataFrame) : df_empty df = false -> 0 < df_len df.
Proof.
  unfold df_empty, df_len. destruct (rows df); [discriminate|]. simpl. lia.
Qed.

Lemma strongly_sorted_map {A B} (R : A -> A -> Prop) (R' : B -> B -> Prop)
    (f : A -> B) (l : list A) :
  (forall a b, R a b -> R' (f a) (f b)) ->
  StronglySorted R l -> StronglySorted R' (map f l).
Proof.
  intros HR. induction 1 as [|a l Hl IH Ha]; simpl; constructor.
  - exact IH.
  - rewrite List.Forall_forall in *. intros b Hb. apply in_map_iff in Hb.
    destruct Hb as (a' & <- & Ha'). apply HR, Ha. exact Ha'.
Qed.

(** X19. The missing-values overview [nulls(df, name)]. For an empty
    table (no row or no column) it has no row. Otherwise it has one row
    for each column of the table, each carrying the table's name, the
    column's label and the number of missing cells of that column (between
    0 and the number of rows); the rows come most-missing first; and a
    column with no missing cell has percentage 0.0. *)
Theorem nulls_overview (df : DataFrame) (name : string) :
  let rep := nulls df name in
  (df_empty df = true ->
     report_rows rep = [] /\ report_columns rep = ["column"; "nulls"; "pct"])
  /\ (df_empty df = false ->
        Permutation (map nr_column (report_rows rep)) (columns df)
        /\ report_columns rep = ["table"; "column"; "nulls"; "pct"])
  /\ (forall r, In r (report_rows rep) ->
        nr_table r = name
        /\ 0 <= nr_nulls r <= df_len df
        /\ (exists k, nth_error (columns df) k = Some (nr_column r)
                      /\ nr_nulls r = count_missing k (rows df))
        /\ nr_pct r = nulls_pct (nr_nulls r) (df_len df)
        /\ (nr_nulls r = 0 -> nr_pct r = S754_zero false))
  /\ StronglySorted (fun a b => nr_nulls b <= nr_nulls a) (report_rows rep).
Proof.
  cbv zeta. unfold nulls.
  destruct (df_empty df) eqn:Hempty; simpl.
  - split; [auto|]. split; [discriminate|]. split; [intros r []|constructor].
  - split; [discriminate|]. split; [|split].
    + intros _. split; [|reflexivity].
      rewrite map_map. simpl.
      change (map (fun x : string * Z => fst x) (sort_desc (isna_sum df)))
        with (map fst (sort_desc (isna_sum df))).
      rewrite (Permutation_map fst (sort_desc_perm (isna_sum df))).
      unfold isna_sum. rewrite isna_sum_from_labels. reflexivity.
    + intros r Hin. apply in_map_iff in Hin. destruct Hin as ([l n] & <- & Hin).
      simpl.
      apply (Permutation_in _ (sort_desc_perm (isna_sum df))) in Hin.
      destruct (isna_sum_from_counts _ _ 0%nat l n Hin) as (k & Hk & Hn).
      simpl in Hn.
      split; [reflexivity|]. split; [|split; [|split]].
      * subst n. pose proof (count_missing_bounds k (rows df)). unfold df_len. lia.
      * exists k. auto.
      * reflexivity.
      * intros ->. apply nulls_pct_zero, df_empty_false_len, Hempty.
    + apply (strongly_sorted_map (fun a b : string * Z => snd b <= snd a)).
      * intros a b H. exact H.
      * apply sort_desc_sorted.
Qed.
